(** * Mood Journal: the server actions over the entry and prompt tables

    A shallow embedding of the eight actions of the mood-journal data layer
    ([createEntry], [updateEntry], [deleteEntry], [getEntry], [listEntries],
    [createPrompt], [updatePrompt], [listPrompts]) and of the two tables they
    work on ([MoodJournalEntries], [MoodPrompts]).

    - A handler is a computation in the monad [Action]: it reads the values
      the runtime hands out ([new Date()], [crypto.randomUUID()]), threads the
      store, and either returns or throws.  What a handler did to the store
      before it threw is kept, so that "no store access on the error path" is
      a statement about the final world.
    - The store is the pair of tables, each a list of rows in insertion
      order, together with a journal of the statements sent to it.
    - Query conditions follow SQL: a comparison with NULL is unknown, and a
      [where] clause keeps the rows whose condition is true. *)

From Stdlib Require Import ZArith List String Ascii Bool Lia Permutation Sorted.
Import ListNotations.

Local Open Scope string_scope.
Local Open Scope Z_scope.

(** ** JavaScript values *)

(** A [Date] is its time value, milliseconds since the epoch. *)
Definition Date := Z.

Module Js.

(** A key of a JSON payload whose schema is [.nullable().optional()]: the
    key is missing, or it carries [null], or it carries a value. *)
Inductive Field (A : Type) : Type :=
| Omitted
| Null
| Given (a : A).
Arguments Omitted {A}.
Arguments Null {A}.
Arguments Given {A} a.

(** [Object.hasOwn(input, key)]. *)
Definition hasOwn {A} (f : Field A) : bool :=
  match f with
  | Omitted => false
  | Null | Given _ => true
  end.

(** [input.key ?? null]: a missing key reads as [undefined]. *)
Definition nullish {A} (f : Field A) : option A :=
  match f with
  | Given a => Some a
  | Omitted | Null => None
  end.

(** [input.key ?? d] for a key that is optional but not nullable. *)
Definition nullish_or {A} (o : option A) (d : A) : A :=
  match o with
  | Some a => a
  | None => d
  end.

(** Truthiness of an optional string: [undefined] and [""] are falsy. *)
Definition truthy (o : option string) : bool :=
  match o with
  | Some s => negb (String.eqb s "")
  | None => false
  end.

(** Truthiness of an optional boolean: [undefined] and [false] are falsy. *)
Definition truthy_bool (o : option bool) : bool :=
  match o with
  | Some b => b
  | None => false
  end.

(** A number is a double.  The handlers only do arithmetic on numbers with
    an integer value, so a number is modelled by that integer, and an
    operation by the exact result rounded to the nearest double, ties to the
    even significand: integers up to 2^53 are their own double, a larger one
    keeps its 53 leading bits.  (A result past the largest double is
    infinite in the runtime and a huge integer here; the store refuses
    both.  A number that comes in a payload is a double already, so the
    integers a payload can carry are those that [round] leaves alone.) *)
Definition MAX_SAFE_INTEGER : Z := 2 ^ 53 - 1.

Definition round (n : Z) : Z :=
  let a := Z.abs n in
  if a <=? 2 ^ 53 then n
  else
    let unit := 2 ^ (Z.log2 a - 52) in
    let q := a / unit in
    let r := a mod unit in
    let q' :=
      if 2 * r <? unit then q
      else if unit <? 2 * r then q + 1
      else if Z.even q then q else q + 1 in
    Z.sgn n * (q' * unit).

(** [a - b] and [a * b]. *)
Definition sub (a b : Z) : Z := round (a - b).
Definition mul (a b : Z) : Z := round (a * b).

End Js.

Import Js.

(** ** Calendar dates

    [z.string().date()] accepts exactly the strings [YYYY-MM-DD] that name a
    day of the proleptic Gregorian calendar. *)

Module Calendar.

Definition digit (c : ascii) : option Z :=
  let n := Z.of_nat (nat_of_ascii c) in
  if (48 <=? n) && (n <=? 57) then Some (n - 48) else None.

Fixpoint number (acc : Z) (cs : list ascii) : option Z :=
  match cs with
  | [] => Some acc
  | c :: cs' =>
      match digit c with
      | Some d => number (10 * acc + d) cs'
      | None => None
      end
  end.

Definition leap (y : Z) : bool :=
  ((y mod 4 =? 0) && negb (y mod 100 =? 0)) || (y mod 400 =? 0).

Definition days_in_month (y m : Z) : Z :=
  if m =? 2 then (if leap y then 29 else 28)
  else if (m =? 4) || (m =? 6) || (m =? 9) || (m =? 11) then 30
  else 31.

(** The year, month and day of a string of the shape [YYYY-MM-DD]. *)
Definition fields (s : string) : option (Z * Z * Z) :=
  match list_ascii_of_string s with
  | [y1; y2; y3; y4; d1; m1; m2; d2; a1; a2] =>
      if Ascii.eqb d1 "-" && Ascii.eqb d2 "-" then
        match number 0 [y1; y2; y3; y4], number 0 [m1; m2], number 0 [a1; a2] with
        | Some y, Some m, Some d => Some (y, m, d)
        | _, _, _ => None
        end
      else None
  | _ => None
  end.

Definition is_date (s : string) : bool :=
  match fields s with
  | Some (y, m, d) =>
      (1 <=? m) && (m <=? 12) && (1 <=? d) && (d <=? days_in_month y m)
  | None => false
  end.

(** Days from 1970-01-01 to the given civil date. *)
Definition days_from_civil (y m d : Z) : Z :=
  let y' := if m <=? 2 then y - 1 else y in
  let era := y' / 400 in
  let yoe := y' - era * 400 in
  let mp := (m + 9) mod 12 in
  let doy := (153 * mp + 2) / 5 + d - 1 in
  let doe := yoe * 365 + yoe / 4 - yoe / 100 + doy in
  era * 146097 + doe - 719468.

(** The time value of [new Date("YYYY-MM-DD")]: midnight UTC of that day.
    This is one instance of the constructor the handlers are parameterised
    by; on a string of another shape it answers the epoch. *)
Definition utc_midnight (s : string) : Date :=
  match fields s with
  | Some (y, m, d) => days_from_civil y m d * 86400000
  | None => 0
  end.

End Calendar.

(** ** Input schemas (zod) *)

Module Zod.

(** A check of a present, non-null value. *)
Definition check (A : Type) := A -> bool.

Definition string_min (lo : nat) : check string :=
  fun s => (lo <=? String.length s)%nat.

Definition string_min_max (lo hi : nat) : check string :=
  fun s => ((lo <=? String.length s) && (String.length s <=? hi))%nat.

Definition int_min (lo : Z) : check Z := fun n => lo <=? n.

Definition int_min_max (lo hi : Z) : check Z :=
  fun n => (lo <=? n) && (n <=? hi).

Definition date : check string := Calendar.is_date.

Definition boolean : check bool := fun _ => true.

(** A required key: missing and [null] are rejected. *)
Definition required {A} (c : check A) (f : Field A) : option A :=
  match f with
  | Given a => if c a then Some a else None
  | Omitted | Null => None
  end.

(** [.optional()]: the key may be missing, [null] is rejected. *)
Definition optional {A} (c : check A) (f : Field A) : option (option A) :=
  match f with
  | Omitted => Some None
  | Null => None
  | Given a => if c a then Some (Some a) else None
  end.

(** [.nullable().optional()]: missing and [null] both pass, and stay apart. *)
Definition nullable_optional {A} (c : check A) (f : Field A) : option (Field A) :=
  match f with
  | Omitted => Some Omitted
  | Null => Some Null
  | Given a => if c a then Some (Given a) else None
  end.

(** [.default(d)]: a missing key parses to [d]. *)
Definition default {A} (c : check A) (d : A) (f : Field A) : option A :=
  match f with
  | Omitted => Some d
  | Null => None
  | Given a => if c a then Some a else None
  end.

End Zod.

(** ** The query language of the store *)

Module Sql.

(** A cell of a nullable column, or a bound parameter: [None] is NULL. *)
Definition value (A : Type) := option A.

(** The truth value of a condition: [None] is unknown. *)
Definition truth := option bool.

(** [eq(l, r)] renders [l = r]; with NULL on either side it is unknown. *)
Definition eq {A} (eqb : A -> A -> bool) (l r : value A) : truth :=
  match l, r with
  | Some a, Some b => Some (eqb a b)
  | _, _ => None
  end.

Definition and (a b : truth) : truth :=
  match a, b with
  | Some false, _ | _, Some false => Some false
  | Some true, Some true => Some true
  | _, _ => None
  end.

Definition or (a b : truth) : truth :=
  match a, b with
  | Some true, _ | _, Some true => Some true
  | Some false, Some false => Some false
  | _, _ => None
  end.

(** A row passes a [where] clause only when the condition is true. *)
Definition holds (t : truth) : bool :=
  match t with
  | Some true => true
  | Some false | None => false
  end.

Definition where_ {R} (cond : R -> truth) (rows : list R) : list R :=
  filter (fun r => holds (cond r)) rows.

(** [orderBy(desc(key))]: rows with the larger key first; rows with equal
    keys keep the order they had.  A row is put in front of the rows sorted
    so far that do not have a larger key, and the rows are put in from the
    last to the first. *)
Fixpoint insert_desc {R} (key : R -> Z) (r : R) (sorted : list R) : list R :=
  match sorted with
  | [] => [r]
  | x :: rest =>
      if key x <=? key r then r :: x :: rest
      else x :: insert_desc key r rest
  end.

Definition orderBy_desc {R} (key : R -> Z) (rows : list R) : list R :=
  fold_right (insert_desc key) [] rows.

(** A number bound to [LIMIT] or [OFFSET] reaches the store as a real, and
    the store takes it only if it converts to a 64-bit integer without loss:
    it has to lie strictly between the least and the largest of them.
    Otherwise the statement fails with "datatype mismatch". *)
Definition integer (n : Z) : bool :=
  (- 2 ^ 63 <? n) && (n <? 2 ^ 63 - 1).

(** The rows after the first [n], and the first [n] rows; all rows and none
    when [n] is not positive. *)
Fixpoint skip {R} (n : Z) (rows : list R) : list R :=
  match rows with
  | [] => []
  | x :: rest => if n <=? 0 then rows else skip (n - 1) rest
  end.

Fixpoint take {R} (n : Z) (rows : list R) : list R :=
  match rows with
  | [] => []
  | x :: rest => if n <=? 0 then [] else x :: take (n - 1) rest
  end.

(** [OFFSET n] skips [n] rows (none when [n] is negative); [LIMIT n] keeps
    at most [n] rows (all of them when [n] is negative).  [None] is the
    failure of the statement. *)
Definition offset {R} (n : Z) (rows : list R) : option (list R) :=
  if integer n then Some (skip n rows) else None.

Definition limit {R} (n : Z) (rows : list R) : option (list R) :=
  if integer n then Some (if n <? 0 then rows else take n rows)
  else None.

(** [.limit(n).offset(k)]: [LIMIT n OFFSET k], the offset applied first. *)
Definition limit_offset {R} (n k : Z) (rows : list R) : option (list R) :=
  match offset k rows with
  | Some skipped => limit n skipped
  | None => None
  end.

(** [update ... set(patch) where(cond)] and [delete ... where(cond)]. *)
Definition update_where {R} (set : R -> R) (cond : R -> truth) (rows : list R) : list R :=
  map (fun r => if holds (cond r) then set r else r) rows.

Definition delete_where {R} (cond : R -> truth) (rows : list R) : list R :=
  filter (fun r => negb (holds (cond r))) rows.

End Sql.

(** ** The tables (src/db/tables.ts) *)

Module MoodJournalEntries.

Record row : Type := {
  id : string;
  userId : string;
  entryDate : Date;
  moodScore : option Z;
  moodLabel : option string;
  tags : option string;
  title : option string;
  body : option string;
  promptId : option string;
  createdAt : Date;
  updatedAt : Date
}.

(** [Partial<typeof MoodJournalEntries.$inferInsert>], as far as
    [updateEntry] fills it: a column that is not named keeps its cell. *)
Record partial : Type := {
  set_entryDate : option Date;
  set_moodScore : option (option Z);
  set_moodLabel : option (option string);
  set_tags : option (option string);
  set_title : option (option string);
  set_body : option (option string);
  set_promptId : option (option string);
  set_updatedAt : option Date
}.

Definition assign {A} (new : option A) (old : A) : A :=
  match new with
  | Some a => a
  | None => old
  end.

(** [.set(updateData)] on one row. *)
Definition set (p : partial) (r : row) : row :=
  {| id := id r;
     userId := userId r;
     entryDate := assign (set_entryDate p) (entryDate r);
     moodScore := assign (set_moodScore p) (moodScore r);
     moodLabel := assign (set_moodLabel p) (moodLabel r);
     tags := assign (set_tags p) (tags r);
     title := assign (set_title p) (title r);
     body := assign (set_body p) (body r);
     promptId := assign (set_promptId p) (promptId r);
     createdAt := createdAt r;
     updatedAt := assign (set_updatedAt p) (updatedAt r) |}.

End MoodJournalEntries.

Module MoodPrompts.

Record row : Type := {
  id : string;
  userId : option string;        (* null = global prompt *)
  title : string;
  promptText : string;
  category : option string;
  isSystem : bool;
  isActive : bool;
  createdAt : Date;
  updatedAt : Date
}.

Record partial : Type := {
  set_title : option string;
  set_promptText : option string;
  set_category : option (option string);
  set_isActive : option bool;
  set_updatedAt : option Date
}.

Definition assign {A} (new : option A) (old : A) : A :=
  match new with
  | Some a => a
  | None => old
  end.

Definition set (p : partial) (r : row) : row :=
  {| id := id r;
     userId := userId r;
     title := assign (set_title p) (title r);
     promptText := assign (set_promptText p) (promptText r);
     category := assign (set_category p) (category r);
     isSystem := isSystem r;
     isActive := assign (set_isActive p) (isActive r);
     createdAt := createdAt r;
     updatedAt := assign (set_updatedAt p) (updatedAt r) |}.

End MoodPrompts.

Definition Entry : Type := MoodJournalEntries.row.
Definition Prompt : Type := MoodPrompts.row.

(** ** The world a handler runs in *)

Inductive Table : Type := TEntries | TPrompts.

(** One statement sent to the store. *)
Inductive Statement : Type :=
| Select (t : Table)
| Insert (t : Table)
| Update (t : Table)
| Delete (t : Table).

Record Db : Type := {
  entries : list Entry;
  prompts : list Prompt
}.

Record World : Type := {
  db : Db;
  journal : list Statement      (* oldest statement first *)
}.

(** What the runtime hands to one call of a handler: the value of
    [new Date()] and the value of [crypto.randomUUID()].  No handler asks for
    either more than once. *)
Record Runtime : Type := {
  clock : Date;
  uuid : string
}.

Inductive ErrorCode : Type := UNAUTHORIZED | NOT_FOUND.

Inductive Exception : Type :=
| ActionError (code : ErrorCode) (message : string)
| ConstraintFailed (t : Table)     (* the store refused a second row with the same primary key *)
| DatatypeMismatch (t : Table).    (* the store refused a LIMIT or OFFSET that is no integer *)

Inductive Outcome (A : Type) : Type :=
| Return (a : A)
| Throw (e : Exception).
Arguments Return {A} a.
Arguments Throw {A} e.

Definition Action (A : Type) : Type := Runtime -> World -> Outcome A * World.

Definition ret {A} (a : A) : Action A := fun _ w => (Return a, w).

Definition throw {A} (e : Exception) : Action A := fun _ w => (Throw e, w).

Definition bind {A B} (m : Action A) (k : A -> Action B) : Action B :=
  fun rt w =>
    match m rt w with
    | (Return a, w') => k a rt w'
    | (Throw e, w') => (Throw e, w')
    end.

Declare Scope action_scope.
Delimit Scope action_scope with action.
Notation "x <- m ;; k" := (bind m (fun x => k))
  (at level 100, m at next level, right associativity) : action_scope.
Notation "m ;; k" := (bind m (fun _ => k))
  (at level 100, right associativity) : action_scope.

(** [new Date()] and [crypto.randomUUID()]. *)
Definition new_Date : Action Date := fun rt w => (Return (clock rt), w).
Definition randomUUID : Action string := fun rt w => (Return (uuid rt), w).

(** [Promise.all([a, b])]: both are started, [a] first, and both run to
    their end; the result is the pair of their results, or what the first
    of them that threw has thrown. *)
Definition Promise_all {A B} (a : Action A) (b : Action B) : Action (A * B) :=
  fun rt w =>
    let (ra, w1) := a rt w in
    let (rb, w2) := b rt w1 in
    match ra, rb with
    | Return x, Return y => (Return (x, y), w2)
    | Throw e, _ => (Throw e, w2)
    | Return _, Throw e => (Throw e, w2)
    end.

Definition sent (s : Statement) (w : World) : World :=
  {| db := db w; journal := journal w ++ [s] |}.

Module Store.

(** [db.select().from(MoodJournalEntries)]: the rows, to be narrowed by
    the clauses of [Sql]. *)
Definition from_entries : Action (list Entry) :=
  fun _ w => (Return (entries (db w)), sent (Select TEntries) w).

Definition from_prompts : Action (list Prompt) :=
  fun _ w => (Return (prompts (db w)), sent (Select TPrompts) w).

(** The rows a select with [LIMIT] and [OFFSET] answers with, or its
    failure. *)
Definition answer {R} (t : Table) (rows : option (list R)) : Action (list R) :=
  fun _ w =>
    match rows with
    | Some rs => (Return rs, w)
    | None => (Throw (DatatypeMismatch t), w)
    end.

(** [db.insert(T).values(row)]; [id] is the primary key of both tables. *)
Definition insert_entry (r : Entry) : Action unit :=
  fun _ w =>
    let w' := sent (Insert TEntries) w in
    if existsb (fun x => String.eqb (MoodJournalEntries.id x) (MoodJournalEntries.id r))
         (entries (db w))
    then (Throw (ConstraintFailed TEntries), w')
    else (Return tt,
          {| db := {| entries := entries (db w) ++ [r]; prompts := prompts (db w) |};
             journal := journal w' |}).

Definition insert_prompt (r : Prompt) : Action unit :=
  fun _ w =>
    let w' := sent (Insert TPrompts) w in
    if existsb (fun x => String.eqb (MoodPrompts.id x) (MoodPrompts.id r))
         (prompts (db w))
    then (Throw (ConstraintFailed TPrompts), w')
    else (Return tt,
          {| db := {| entries := entries (db w); prompts := prompts (db w) ++ [r] |};
             journal := journal w' |}).

Definition update_entries (p : MoodJournalEntries.partial) (cond : Entry -> Sql.truth)
  : Action unit :=
  fun _ w =>
    (Return tt,
     {| db := {| entries := Sql.update_where (MoodJournalEntries.set p) cond (entries (db w));
                 prompts := prompts (db w) |};
        journal := journal w ++ [Update TEntries] |}).

Definition update_prompts (p : MoodPrompts.partial) (cond : Prompt -> Sql.truth)
  : Action unit :=
  fun _ w =>
    (Return tt,
     {| db := {| entries := entries (db w);
                 prompts := Sql.update_where (MoodPrompts.set p) cond (prompts (db w)) |};
        journal := journal w ++ [Update TPrompts] |}).

Definition delete_entries (cond : Entry -> Sql.truth) : Action unit :=
  fun _ w =>
    (Return tt,
     {| db := {| entries := Sql.delete_where cond (entries (db w));
                 prompts := prompts (db w) |};
        journal := journal w ++ [Delete TEntries] |}).

End Store.

(** ** Request context *)

Record User : Type := { user_id : string }.

Record Locals : Type := { user : option User }.

Record ActionAPIContext : Type := { locals : option Locals }.

(** ** Payloads, parsed inputs and their schemas

    For each action: [payload] is the JSON object a caller sends, [input] is
    what the handler receives, and [schema] is the [z.object] between them. *)

Definition and_then {A B} (o : option A) (k : A -> option B) : option B :=
  match o with
  | Some a => k a
  | None => None
  end.

Notation "'check!' x <- o ; k" := (and_then o (fun x => k))
  (at level 10, x name, o at level 100, k at level 200).

Module CreateEntry.

Record payload : Type := {
  raw_entryDate : Field string;
  raw_moodScore : Field Z;
  raw_moodLabel : Field string;
  raw_tags : Field string;
  raw_title : Field string;
  raw_body : Field string;
  raw_promptId : Field string
}.

Record input : Type := {
  entryDate : option string;
  moodScore : Field Z;
  moodLabel : Field string;
  tags : Field string;
  title : Field string;
  body : Field string;
  promptId : Field string
}.

Definition schema (p : payload) : option input :=
  check! entryDate <- Zod.optional Zod.date (raw_entryDate p);
  check! moodScore <- Zod.nullable_optional (Zod.int_min_max 1 10) (raw_moodScore p);
  check! moodLabel <- Zod.nullable_optional (Zod.string_min_max 1 50) (raw_moodLabel p);
  check! tags <- Zod.nullable_optional (Zod.string_min_max 1 255) (raw_tags p);
  check! title <- Zod.nullable_optional (Zod.string_min_max 1 120) (raw_title p);
  check! body <- Zod.nullable_optional (Zod.string_min 1) (raw_body p);
  check! promptId <- Zod.nullable_optional (Zod.string_min 1) (raw_promptId p);
  Some {| entryDate := entryDate; moodScore := moodScore; moodLabel := moodLabel;
          tags := tags; title := title; body := body; promptId := promptId |}.

End CreateEntry.

Module UpdateEntry.

Record payload : Type := {
  raw_id : Field string;
  raw_entryDate : Field string;
  raw_moodScore : Field Z;
  raw_moodLabel : Field string;
  raw_tags : Field string;
  raw_title : Field string;
  raw_body : Field string;
  raw_promptId : Field string
}.

Record input : Type := {
  id : string;
  entryDate : option string;
  moodScore : Field Z;
  moodLabel : Field string;
  tags : Field string;
  title : Field string;
  body : Field string;
  promptId : Field string
}.

Definition schema (p : payload) : option input :=
  check! id <- Zod.required (Zod.string_min 1) (raw_id p);
  check! entryDate <- Zod.optional Zod.date (raw_entryDate p);
  check! moodScore <- Zod.nullable_optional (Zod.int_min_max 1 10) (raw_moodScore p);
  check! moodLabel <- Zod.nullable_optional (Zod.string_min_max 1 50) (raw_moodLabel p);
  check! tags <- Zod.nullable_optional (Zod.string_min_max 1 255) (raw_tags p);
  check! title <- Zod.nullable_optional (Zod.string_min_max 1 120) (raw_title p);
  check! body <- Zod.nullable_optional (Zod.string_min 1) (raw_body p);
  check! promptId <- Zod.nullable_optional (Zod.string_min 1) (raw_promptId p);
  Some {| id := id; entryDate := entryDate; moodScore := moodScore;
          moodLabel := moodLabel; tags := tags; title := title; body := body;
          promptId := promptId |}.

End UpdateEntry.

Module DeleteEntry.

Record payload : Type := { raw_id : Field string }.
Record input : Type := { id : string }.

Definition schema (p : payload) : option input :=
  check! id <- Zod.required (Zod.string_min 1) (raw_id p);
  Some {| id := id |}.

End DeleteEntry.

Module GetEntry.

Record payload : Type := { raw_id : Field string }.
Record input : Type := { id : string }.

Definition schema (p : payload) : option input :=
  check! id <- Zod.required (Zod.string_min 1) (raw_id p);
  Some {| id := id |}.

End GetEntry.

Module ListEntries.

Record payload : Type := {
  raw_page : Field Z;
  raw_pageSize : Field Z
}.

Record input : Type := {
  page : Z;
  pageSize : Z
}.

Definition schema (p : payload) : option input :=
  check! page <- Zod.default (Zod.int_min 1) 1 (raw_page p);
  check! pageSize <- Zod.default (Zod.int_min_max 1 100) 20 (raw_pageSize p);
  Some {| page := page; pageSize := pageSize |}.

End ListEntries.

Module CreatePrompt.

Record payload : Type := {
  raw_title : Field string;
  raw_promptText : Field string;
  raw_category : Field string;
  raw_isActive : Field bool
}.

Record input : Type := {
  title : string;
  promptText : string;
  category : Field string;
  isActive : option bool
}.

Definition schema (p : payload) : option input :=
  check! title <- Zod.required (Zod.string_min_max 1 120) (raw_title p);
  check! promptText <- Zod.required (Zod.string_min 1) (raw_promptText p);
  check! category <- Zod.nullable_optional (Zod.string_min_max 1 80) (raw_category p);
  check! isActive <- Zod.optional Zod.boolean (raw_isActive p);
  Some {| title := title; promptText := promptText; category := category;
          isActive := isActive |}.

End CreatePrompt.

Module UpdatePrompt.

Record payload : Type := {
  raw_id : Field string;
  raw_title : Field string;
  raw_promptText : Field string;
  raw_category : Field string;
  raw_isActive : Field bool
}.

Record input : Type := {
  id : string;
  title : option string;
  promptText : option string;
  category : Field string;
  isActive : option bool
}.

Definition schema (p : payload) : option input :=
  check! id <- Zod.required (Zod.string_min 1) (raw_id p);
  check! title <- Zod.optional (Zod.string_min_max 1 120) (raw_title p);
  check! promptText <- Zod.optional (Zod.string_min 1) (raw_promptText p);
  check! category <- Zod.nullable_optional (Zod.string_min_max 1 80) (raw_category p);
  check! isActive <- Zod.optional Zod.boolean (raw_isActive p);
  Some {| id := id; title := title; promptText := promptText;
          category := category; isActive := isActive |}.

End UpdatePrompt.

Module ListPrompts.

Record payload : Type := { raw_includeInactive : Field bool }.
Record input : Type := { includeInactive : option bool }.

Definition schema (p : payload) : option input :=
  check! includeInactive <- Zod.optional Zod.boolean (raw_includeInactive p);
  Some {| includeInactive := includeInactive |}.

End ListPrompts.

(** ** Results *)

(** [{ success: true, data }]. *)
Record Envelope (A : Type) : Type := {
  success : bool;
  data : A
}.
Arguments success {A} _.
Arguments data {A} _.

Definition succeed {A} (a : A) : Envelope A := {| success := true; data := a |}.

Record EntryPage : Type := {
  items : list Entry;
  total : Z;
  page : Z;
  pageSize : Z
}.

Record PromptList : Type := {
  prompt_items : list Prompt;
  prompt_total : Z
}.

(** ** The handlers (src/unnamed/part_000) *)

Local Open Scope action_scope.

Definition requireUser (context : ActionAPIContext) : Action User :=
  let user :=
    match locals context with
    | Some l => user l                  (* locals?.user *)
    | None => None
    end in
  match user with
  | None =>
      throw (ActionError UNAUTHORIZED "You must be signed in to perform this action.")
  | Some u => ret u
  end.

(** [and(eq(MoodJournalEntries.id, id), eq(MoodJournalEntries.userId, user.id))] *)
Definition own_entry (id : string) (u : User) (r : Entry) : Sql.truth :=
  Sql.and
    (Sql.eq String.eqb (Some (MoodJournalEntries.id r)) (Some id))
    (Sql.eq String.eqb (Some (MoodJournalEntries.userId r)) (Some (user_id u))).

(** [eq(MoodJournalEntries.userId, user.id)] *)
Definition entry_of (u : User) (r : Entry) : Sql.truth :=
  Sql.eq String.eqb (Some (MoodJournalEntries.userId r)) (Some (user_id u)).

(** [and(eq(MoodPrompts.id, id), eq(MoodPrompts.userId, user.id))] *)
Definition own_prompt (id : string) (u : User) (r : Prompt) : Sql.truth :=
  Sql.and
    (Sql.eq String.eqb (Some (MoodPrompts.id r)) (Some id))
    (Sql.eq String.eqb (MoodPrompts.userId r) (Some (user_id u))).

Section Handlers.

(** [new Date(s)] for a string [s]: the constructor of the runtime. *)
Variable Date_of_string : string -> Date.

Definition createEntry (input : CreateEntry.input) (context : ActionAPIContext)
  : Action (Envelope Entry) :=
  user <- requireUser context ;;
  now <- new_Date ;;
  id <- randomUUID ;;
  let entry : Entry :=
    {| MoodJournalEntries.id := id;
       MoodJournalEntries.userId := user_id user;
       MoodJournalEntries.entryDate :=
         match CreateEntry.entryDate input with
         | Some s => if truthy (Some s) then Date_of_string s else now
         | None => now
         end;
       MoodJournalEntries.moodScore := nullish (CreateEntry.moodScore input);
       MoodJournalEntries.moodLabel := nullish (CreateEntry.moodLabel input);
       MoodJournalEntries.tags := nullish (CreateEntry.tags input);
       MoodJournalEntries.title := nullish (CreateEntry.title input);
       MoodJournalEntries.body := nullish (CreateEntry.body input);
       MoodJournalEntries.promptId := nullish (CreateEntry.promptId input);
       MoodJournalEntries.createdAt := now;
       MoodJournalEntries.updatedAt := now |} in
  Store.insert_entry entry ;;
  ret (succeed entry).

(** The [updateData] object of [updateEntry]. *)
Definition entry_updateData (input : UpdateEntry.input) (now : Date)
  : MoodJournalEntries.partial :=
  {| MoodJournalEntries.set_updatedAt := Some now;
     MoodJournalEntries.set_entryDate :=
       match UpdateEntry.entryDate input with
       | Some s => if truthy (Some s) then Some (Date_of_string s) else None
       | None => None
       end;
     MoodJournalEntries.set_moodScore :=
       if hasOwn (UpdateEntry.moodScore input)
       then Some (nullish (UpdateEntry.moodScore input)) else None;
     MoodJournalEntries.set_moodLabel :=
       if hasOwn (UpdateEntry.moodLabel input)
       then Some (nullish (UpdateEntry.moodLabel input)) else None;
     MoodJournalEntries.set_tags :=
       if hasOwn (UpdateEntry.tags input)
       then Some (nullish (UpdateEntry.tags input)) else None;
     MoodJournalEntries.set_title :=
       if hasOwn (UpdateEntry.title input)
       then Some (nullish (UpdateEntry.title input)) else None;
     MoodJournalEntries.set_body :=
       if hasOwn (UpdateEntry.body input)
       then Some (nullish (UpdateEntry.body input)) else None;
     MoodJournalEntries.set_promptId :=
       if hasOwn (UpdateEntry.promptId input)
       then Some (nullish (UpdateEntry.promptId input)) else None |}.

Definition updateEntry (input : UpdateEntry.input) (context : ActionAPIContext)
  : Action (Envelope string) :=
  user <- requireUser context ;;
  rows <- Store.from_entries ;;
  match Sql.where_ (own_entry (UpdateEntry.id input) user) rows with
  | [] => throw (ActionError NOT_FOUND "Entry not found.")
  | _ :: _ =>
      now <- new_Date ;;
      Store.update_entries (entry_updateData input now)
        (own_entry (UpdateEntry.id input) user) ;;
      ret (succeed (UpdateEntry.id input))
  end.

Definition deleteEntry (input : DeleteEntry.input) (context : ActionAPIContext)
  : Action (Envelope unit) :=
  user <- requireUser context ;;
  rows <- Store.from_entries ;;
  match map MoodJournalEntries.id
          (Sql.where_ (own_entry (DeleteEntry.id input) user) rows) with
  | [] => throw (ActionError NOT_FOUND "Entry not found.")
  | _ :: _ =>
      Store.delete_entries (own_entry (DeleteEntry.id input) user) ;;
      ret (succeed tt)
  end.

Definition getEntry (input : GetEntry.input) (context : ActionAPIContext)
  : Action (Envelope Entry) :=
  user <- requireUser context ;;
  rows <- Store.from_entries ;;
  match Sql.where_ (own_entry (GetEntry.id input) user) rows with
  | [] => throw (ActionError NOT_FOUND "Entry not found.")
  | entry :: _ => ret (succeed entry)
  end.

Definition listEntries (input : ListEntries.input) (context : ActionAPIContext)
  : Action (Envelope EntryPage) :=
  user <- requireUser context ;;
  let offset := Js.mul (Js.sub (ListEntries.page input) 1) (ListEntries.pageSize input) in
  found <- Promise_all
             (rows <- Store.from_entries ;;
              Store.answer TEntries
                (Sql.limit_offset (ListEntries.pageSize input) offset
                   (Sql.orderBy_desc MoodJournalEntries.entryDate
                      (Sql.where_ (entry_of user) rows))))
             (rows <- Store.from_entries ;;
              ret (map MoodJournalEntries.id (Sql.where_ (entry_of user) rows))) ;;
  let (entries, total) := found in
  ret (succeed {| items := entries;
                  total := Z.of_nat (List.length total);
                  page := ListEntries.page input;
                  pageSize := ListEntries.pageSize input |}).

Definition createPrompt (input : CreatePrompt.input) (context : ActionAPIContext)
  : Action (Envelope Prompt) :=
  user <- requireUser context ;;
  now <- new_Date ;;
  id <- randomUUID ;;
  let prompt : Prompt :=
    {| MoodPrompts.id := id;
       MoodPrompts.userId := Some (user_id user);
       MoodPrompts.title := CreatePrompt.title input;
       MoodPrompts.promptText := CreatePrompt.promptText input;
       MoodPrompts.category := nullish (CreatePrompt.category input);
       MoodPrompts.isSystem := false;
       MoodPrompts.isActive := nullish_or (CreatePrompt.isActive input) true;
       MoodPrompts.createdAt := now;
       MoodPrompts.updatedAt := now |} in
  Store.insert_prompt prompt ;;
  ret (succeed prompt).

(** The [updateData] object of [updatePrompt]. *)
Definition prompt_updateData (input : UpdatePrompt.input) (now : Date)
  : MoodPrompts.partial :=
  {| MoodPrompts.set_updatedAt := Some now;
     MoodPrompts.set_title :=
       if truthy (UpdatePrompt.title input) then UpdatePrompt.title input else None;
     MoodPrompts.set_promptText :=
       if truthy (UpdatePrompt.promptText input)
       then UpdatePrompt.promptText input else None;
     MoodPrompts.set_category :=
       if hasOwn (UpdatePrompt.category input)
       then Some (nullish (UpdatePrompt.category input)) else None;
     (* hasOwn(input, "isActive"): the key is present exactly when it parsed
        to a boolean *)
     MoodPrompts.set_isActive := UpdatePrompt.isActive input |}.

Definition updatePrompt (input : UpdatePrompt.input) (context : ActionAPIContext)
  : Action (Envelope string) :=
  user <- requireUser context ;;
  rows <- Store.from_prompts ;;
  match Sql.where_ (own_prompt (UpdatePrompt.id input) user) rows with
  | [] => throw (ActionError NOT_FOUND "Prompt not found.")
  | _ :: _ =>
      now <- new_Date ;;
      Store.update_prompts (prompt_updateData input now)
        (own_prompt (UpdatePrompt.id input) user) ;;
      ret (succeed (UpdatePrompt.id input))
  end.

Definition listPrompts (input : ListPrompts.input) (context : ActionAPIContext)
  : Action (Envelope PromptList) :=
  user <- requireUser context ;;
  let ownershipFilter (r : Prompt) :=
    Sql.or
      (Sql.eq String.eqb (MoodPrompts.userId r) (Some (user_id user)))
      (Sql.eq String.eqb (MoodPrompts.userId r) None) in
  let activeFilter (r : Prompt) :=
    Sql.eq Bool.eqb (Some (MoodPrompts.isActive r)) (Some true) in
  let combinedFilter (r : Prompt) :=
    if truthy_bool (ListPrompts.includeInactive input)
    then ownershipFilter r
    else Sql.and (activeFilter r) (ownershipFilter r) in
  rows <- Store.from_prompts ;;
  let prompts :=
    Sql.orderBy_desc MoodPrompts.createdAt (Sql.where_ combinedFilter rows) in
  ret (succeed {| prompt_items := prompts;
                  prompt_total := Z.of_nat (List.length prompts) |}).

End Handlers.

(** ** Vocabulary of the statements *)

(** The identity the request carries, if any. *)
Definition caller (context : ActionAPIContext) : option User :=
  match locals context with
  | Some l => user l
  | None => None
  end.

Definition Unauthenticated : Exception :=
  ActionError UNAUTHORIZED "You must be signed in to perform this action.".

Definition EntryNotFound : Exception := ActionError NOT_FOUND "Entry not found.".

Definition PromptNotFound : Exception := ActionError NOT_FOUND "Prompt not found.".

(** Ownership, read off the rows. *)
Definition entry_owned_by (u : User) (r : Entry) : bool :=
  String.eqb (MoodJournalEntries.userId r) (user_id u).

Definition prompt_owned_by (u : User) (r : Prompt) : bool :=
  match MoodPrompts.userId r with
  | Some owner => String.eqb owner (user_id u)
  | None => false
  end.

Definition is_global (r : Prompt) : bool :=
  match MoodPrompts.userId r with
  | Some _ => false
  | None => true
  end.

(** The record an update of [id] by [u] is aimed at. *)
Definition entry_target (id : string) (u : User) (r : Entry) : bool :=
  String.eqb (MoodJournalEntries.id r) id && entry_owned_by u r.

Definition prompt_target (id : string) (u : User) (r : Prompt) : bool :=
  String.eqb (MoodPrompts.id r) id && prompt_owned_by u r.

(** The listing the specification asks of [listPrompts]: own or global
    prompts, active ones only unless inactive ones are asked for. *)
Definition visible_prompt (u : User) (includeInactive : bool) (r : Prompt) : bool :=
  (prompt_owned_by u r || is_global r) && (includeInactive || MoodPrompts.isActive r).

(** *** The sparse patch, in the words of the specification

    A key that is left out keeps the stored cell, a key that is present
    (also with [null]) overwrites it, and [updatedAt] becomes "now". *)

Definition overwrite {A} (key : Field A) (stored : option A) : option A :=
  match key with
  | Omitted => stored
  | Null => None
  | Given a => Some a
  end.

Definition replace {A} (key : option A) (stored : A) : A :=
  match key with
  | None => stored
  | Some a => a
  end.

Definition patched_entry (Date_of_string : string -> Date)
  (input : UpdateEntry.input) (now : Date) (r : Entry) : Entry :=
  {| MoodJournalEntries.id := MoodJournalEntries.id r;
     MoodJournalEntries.userId := MoodJournalEntries.userId r;
     MoodJournalEntries.entryDate :=
       replace (option_map Date_of_string (UpdateEntry.entryDate input))
         (MoodJournalEntries.entryDate r);
     MoodJournalEntries.moodScore :=
       overwrite (UpdateEntry.moodScore input) (MoodJournalEntries.moodScore r);
     MoodJournalEntries.moodLabel :=
       overwrite (UpdateEntry.moodLabel input) (MoodJournalEntries.moodLabel r);
     MoodJournalEntries.tags :=
       overwrite (UpdateEntry.tags input) (MoodJournalEntries.tags r);
     MoodJournalEntries.title :=
       overwrite (UpdateEntry.title input) (MoodJournalEntries.title r);
     MoodJournalEntries.body :=
       overwrite (UpdateEntry.body input) (MoodJournalEntries.body r);
     MoodJournalEntries.promptId :=
       overwrite (UpdateEntry.promptId input) (MoodJournalEntries.promptId r);
     MoodJournalEntries.createdAt := MoodJournalEntries.createdAt r;
     MoodJournalEntries.updatedAt := now |}.

Definition patched_prompt (input : UpdatePrompt.input) (now : Date) (r : Prompt)
  : Prompt :=
  {| MoodPrompts.id := MoodPrompts.id r;
     MoodPrompts.userId := MoodPrompts.userId r;
     MoodPrompts.title := replace (UpdatePrompt.title input) (MoodPrompts.title r);
     MoodPrompts.promptText :=
       replace (UpdatePrompt.promptText input) (MoodPrompts.promptText r);
     MoodPrompts.category :=
       overwrite (UpdatePrompt.category input) (MoodPrompts.category r);
     MoodPrompts.isSystem := MoodPrompts.isSystem r;
     MoodPrompts.isActive :=
       replace (UpdatePrompt.isActive input) (MoodPrompts.isActive r);
     MoodPrompts.createdAt := MoodPrompts.createdAt r;
     MoodPrompts.updatedAt := now |}.

(** A row with nothing but [updatedAt] changed. *)
Definition touched_entry (now : Date) (r : Entry) : Entry :=
  {| MoodJournalEntries.id := MoodJournalEntries.id r;
     MoodJournalEntries.userId := MoodJournalEntries.userId r;
     MoodJournalEntries.entryDate := MoodJournalEntries.entryDate r;
     MoodJournalEntries.moodScore := MoodJournalEntries.moodScore r;
     MoodJournalEntries.moodLabel := MoodJournalEntries.moodLabel r;
     MoodJournalEntries.tags := MoodJournalEntries.tags r;
     MoodJournalEntries.title := MoodJournalEntries.title r;
     MoodJournalEntries.body := MoodJournalEntries.body r;
     MoodJournalEntries.promptId := MoodJournalEntries.promptId r;
     MoodJournalEntries.createdAt := MoodJournalEntries.createdAt r;
     MoodJournalEntries.updatedAt := now |}.

Definition touched_prompt (now : Date) (r : Prompt) : Prompt :=
  {| MoodPrompts.id := MoodPrompts.id r;
     MoodPrompts.userId := MoodPrompts.userId r;
     MoodPrompts.title := MoodPrompts.title r;
     MoodPrompts.promptText := MoodPrompts.promptText r;
     MoodPrompts.category := MoodPrompts.category r;
     MoodPrompts.isSystem := MoodPrompts.isSystem r;
     MoodPrompts.isActive := MoodPrompts.isActive r;
     MoodPrompts.createdAt := MoodPrompts.createdAt r;
     MoodPrompts.updatedAt := now |}.

(** The payload [{ id }] of an update that names no field. *)
Definition empty_entry_patch (id : string) : UpdateEntry.input :=
  {| UpdateEntry.id := id;
     UpdateEntry.entryDate := None;
     UpdateEntry.moodScore := Omitted;
     UpdateEntry.moodLabel := Omitted;
     UpdateEntry.tags := Omitted;
     UpdateEntry.title := Omitted;
     UpdateEntry.body := Omitted;
     UpdateEntry.promptId := Omitted |}.

Definition empty_prompt_patch (id : string) : UpdatePrompt.input :=
  {| UpdatePrompt.id := id;
     UpdatePrompt.title := None;
     UpdatePrompt.promptText := None;
     UpdatePrompt.category := Omitted;
     UpdatePrompt.isActive := None |}.

(** *** The public API as a transition system *)

Inductive Call : Type :=
| CallCreateEntry (i : CreateEntry.input)
| CallUpdateEntry (i : UpdateEntry.input)
| CallDeleteEntry (i : DeleteEntry.input)
| CallGetEntry (i : GetEntry.input)
| CallListEntries (i : ListEntries.input)
| CallCreatePrompt (i : CreatePrompt.input)
| CallUpdatePrompt (i : UpdatePrompt.input)
| CallListPrompts (i : ListPrompts.input).

(** One request: which action, with what input, from whom, and what the
    runtime hands out while it runs. *)
Record Request : Type := {
  req_call : Call;
  req_context : ActionAPIContext;
  req_runtime : Runtime
}.

(** The world a request leaves behind, whether it returned or threw. *)
Definition after (Date_of_string : string -> Date) (q : Request) (w : World) : World :=
  match req_call q with
  | CallCreateEntry i => snd (createEntry Date_of_string i (req_context q) (req_runtime q) w)
  | CallUpdateEntry i => snd (updateEntry Date_of_string i (req_context q) (req_runtime q) w)
  | CallDeleteEntry i => snd (deleteEntry i (req_context q) (req_runtime q) w)
  | CallGetEntry i => snd (getEntry i (req_context q) (req_runtime q) w)
  | CallListEntries i => snd (listEntries i (req_context q) (req_runtime q) w)
  | CallCreatePrompt i => snd (createPrompt i (req_context q) (req_runtime q) w)
  | CallUpdatePrompt i => snd (updatePrompt i (req_context q) (req_runtime q) w)
  | CallListPrompts i => snd (listPrompts i (req_context q) (req_runtime q) w)
  end.

Definition after_all (Date_of_string : string -> Date) (qs : list Request) (w : World)
  : World :=
  fold_left (fun w q => after Date_of_string q w) qs w.

(** No entry (prompt) with this id belongs to [u]: there is none with the
    id, or it has another owner (for a prompt, possibly none). *)
Definition not_own_entry (id : string) (u : User) (w : World) : Prop :=
  forall r, In r (entries (db w)) ->
    MoodJournalEntries.id r = id -> MoodJournalEntries.userId r <> user_id u.

Definition not_own_prompt (id : string) (u : User) (w : World) : Prop :=
  forall r, In r (prompts (db w)) ->
    MoodPrompts.id r = id -> MoodPrompts.userId r <> Some (user_id u).

(** The id is not yet the primary key of any stored entry (prompt). *)
Definition fresh_entry_id (id : string) (w : World) : Prop :=
  forall r, In r (entries (db w)) -> MoodJournalEntries.id r <> id.

Definition fresh_prompt_id (id : string) (w : World) : Prop :=
  forall r, In r (prompts (db w)) -> MoodPrompts.id r <> id.

(** From [w] to [w'] the store was read once, in table [t], and not written. *)
Definition only_read (t : Table) (w w' : World) : Prop :=
  db w' = db w /\ journal w' = (journal w ++ [Select t])%list.

(** Who owns which prompt: the id and owner of every row, in table order. *)
Definition prompt_owners (w : World) : list (string * option string) :=
  map (fun p => (MoodPrompts.id p, MoodPrompts.userId p)) (prompts (db w)).

(** The prompt table holds no global (ownerless) prompt. *)
Definition no_global_prompt (w : World) : Prop :=
  forall p, In p (prompts (db w)) -> MoodPrompts.userId p <> None.

(** The [entryDate] key of the input of a request, when the action has one
    and the key is given. *)
Definition date_key (c : Call) : option string :=
  match c with
  | CallCreateEntry i => CreateEntry.entryDate i
  | CallUpdateEntry i => UpdateEntry.entryDate i
  | _ => None
  end.

(** An update payload for entry [id] in which every key that may be [null]
    is [null], and [entryDate] is as given. *)
Definition all_null (id : string) (entryDate : Field string) : UpdateEntry.payload :=
  {| UpdateEntry.raw_id := Given id;
     UpdateEntry.raw_entryDate := entryDate;
     UpdateEntry.raw_moodScore := Null;
     UpdateEntry.raw_moodLabel := Null;
     UpdateEntry.raw_tags := Null;
     UpdateEntry.raw_title := Null;
     UpdateEntry.raw_body := Null;
     UpdateEntry.raw_promptId := Null |}.

Definition all_null_input (id : string) : UpdateEntry.input :=
  {| UpdateEntry.id := id;
     UpdateEntry.entryDate := None;
     UpdateEntry.moodScore := Null;
     UpdateEntry.moodLabel := Null;
     UpdateEntry.tags := Null;
     UpdateEntry.title := Null;
     UpdateEntry.body := Null;
     UpdateEntry.promptId := Null |}.

(** Where the [entryDate] of an entry [r'], found in the table after request
    [q], comes from: it is the date the entry with that id had before, or the
    date built from the non-empty string the request gave, or, for a
    creation, the time of the call. *)
Definition date_origin (Date_of_string : string -> Date) (q : Request) (w : World)
  (r' : Entry) : Prop :=
  (exists r, In r (entries (db w))
             /\ MoodJournalEntries.id r = MoodJournalEntries.id r'
             /\ MoodJournalEntries.entryDate r' = MoodJournalEntries.entryDate r)
  \/ (exists s, date_key (req_call q) = Some s /\ s <> ""
                /\ MoodJournalEntries.entryDate r' = Date_of_string s)
  \/ ((exists i, req_call q = CallCreateEntry i)
      /\ MoodJournalEntries.entryDate r' = clock (req_runtime q)).

(** The order of [orderBy(desc(key))]: no row comes before one with a
    larger key. *)
Definition descending {R} (key : R -> Z) (a b : R) : Prop := key b <= key a.

(** A list of entries with the latest [entryDate] first. *)
Definition newest_first (rows : list Entry) : Prop :=
  StronglySorted (descending MoodJournalEntries.entryDate) rows.

(** *** Further vocabulary: frames, keys and bounds *)

(** A statement that only reads. *)
Definition is_select (s : Statement) : bool :=
  match s with
  | Select _ => true
  | Insert _ | Update _ | Delete _ => false
  end.

(** The primary keys of the two tables, in table order. *)
Definition entry_ids (w : World) : list string :=
  map MoodJournalEntries.id (entries (db w)).

Definition prompt_ids (w : World) : list string :=
  map MoodPrompts.id (prompts (db w)).

(** No two rows of a table share their primary key. *)
Definition unique_ids (w : World) : Prop :=
  NoDup (entry_ids w) /\ NoDup (prompt_ids w).

(** The rows that do not belong to [u]; for prompts these include the
    global ones. *)
Definition entries_of_others (u : User) (w : World) : list Entry :=
  filter (fun r => negb (entry_owned_by u r)) (entries (db w)).

Definition prompts_of_others (u : User) (w : World) : list Prompt :=
  filter (fun r => negb (prompt_owned_by u r)) (prompts (db w)).

(** What identifies a prompt for good: its key, owner, origin and time of
    creation. *)
Definition prompt_identity (p : Prompt) : string * option string * bool * Date :=
  (MoodPrompts.id p, MoodPrompts.userId p, MoodPrompts.isSystem p,
   MoodPrompts.createdAt p).

(** An entry [r'] keeps the key, owner and time of creation of a row that
    was stored before. *)
Definition same_entry_identity (w : World) (r' : Entry) : Prop :=
  exists r, In r (entries (db w))
            /\ MoodJournalEntries.id r = MoodJournalEntries.id r'
            /\ MoodJournalEntries.userId r = MoodJournalEntries.userId r'
            /\ MoodJournalEntries.createdAt r = MoodJournalEntries.createdAt r'.

(** A cell that is null, or passes the check. *)
Definition null_or {A} (c : Zod.check A) (cell : option A) : Prop :=
  match cell with
  | Some a => c a = true
  | None => True
  end.

(** The bounds the entry schemas put on the optional columns. *)
Definition entry_within_bounds (r : Entry) : Prop :=
  null_or (Zod.int_min_max 1 10) (MoodJournalEntries.moodScore r) /\
  null_or (Zod.string_min_max 1 50) (MoodJournalEntries.moodLabel r) /\
  null_or (Zod.string_min_max 1 255) (MoodJournalEntries.tags r) /\
  null_or (Zod.string_min_max 1 120) (MoodJournalEntries.title r) /\
  null_or (Zod.string_min 1) (MoodJournalEntries.body r) /\
  null_or (Zod.string_min 1) (MoodJournalEntries.promptId r).

(** The bounds the prompt schemas put on the text columns. *)
Definition prompt_within_bounds (p : Prompt) : Prop :=
  Zod.string_min_max 1 120 (MoodPrompts.title p) = true /\
  Zod.string_min 1 (MoodPrompts.promptText p) = true /\
  null_or (Zod.string_min_max 1 80) (MoodPrompts.category p).

(** Every stored row is within the bounds of the schemas. *)
Definition store_within_bounds (w : World) : Prop :=
  (forall r, In r (entries (db w)) -> entry_within_bounds r) /\
  (forall p, In p (prompts (db w)) -> prompt_within_bounds p).

(** The input of the call is one its schema has let through. *)
Definition schema_passed (c : Call) : Prop :=
  match c with
  | CallCreateEntry i => exists p, CreateEntry.schema p = Some i
  | CallUpdateEntry i => exists p, UpdateEntry.schema p = Some i
  | CallDeleteEntry i => exists p, DeleteEntry.schema p = Some i
  | CallGetEntry i => exists p, GetEntry.schema p = Some i
  | CallListEntries i => exists p, ListEntries.schema p = Some i
  | CallCreatePrompt i => exists p, CreatePrompt.schema p = Some i
  | CallUpdatePrompt i => exists p, UpdatePrompt.schema p = Some i
  | CallListPrompts i => exists p, ListPrompts.schema p = Some i
  end.

(** The number of entries of [u], as [listEntries] counts them. *)
Definition entry_count (u : User) (w : World) : Z :=
  Z.of_nat (List.length (filter (entry_owned_by u) (entries (db w)))).

(** The prompts a call of [listPrompts] returns. *)
Definition listed_prompts (input : ListPrompts.input) (context : ActionAPIContext)
  (rt : Runtime) (w : World) : list Prompt :=
  match fst (listPrompts input context rt w) with
  | Return r => prompt_items (data r)
  | Throw _ => []
  end.

(** The prompts of [u] that a listing shows: all of them when inactive ones
    are asked for, the active ones otherwise. *)
Definition own_listing (u : User) (includeInactive : option bool) (r : Prompt) : bool :=
  prompt_owned_by u r && (truthy_bool includeInactive || MoodPrompts.isActive r).

(** The update payload that switches a prompt off. *)
Definition deactivate (id : string) : UpdatePrompt.input :=
  {| UpdatePrompt.id := id;
     UpdatePrompt.title := None;
     UpdatePrompt.promptText := None;
     UpdatePrompt.category := Omitted;
     UpdatePrompt.isActive := Some false |}.

(** The request does not come from [u]: it carries no identity, or that of
    a user with another id. *)
Definition not_from (u : User) (q : Request) : Prop :=
  match caller (req_context q) with
  | Some v => user_id v <> user_id u
  | None => True
  end.

(** ** Sample data *)

Module Sample.

Definition alice : User := {| user_id := "alice" |}.
Definition bob : User := {| user_id := "bob" |}.

Definition signed_in (u : User) : ActionAPIContext :=
  {| locals := Some {| user := Some u |} |}.

Definition no_locals : ActionAPIContext := {| locals := None |}.
Definition no_user : ActionAPIContext := {| locals := Some {| user := None |} |}.

Definition first_call : Runtime := {| clock := 1000; uuid := "uuid-1" |}.
Definition second_call : Runtime := {| clock := 2000; uuid := "uuid-2" |}.

Definition world (es : list Entry) (ps : list Prompt) : World :=
  {| db := {| entries := es; prompts := ps |}; journal := [] |}.

Definition entry (id owner : string) (day : Z) : Entry :=
  {| MoodJournalEntries.id := id;
     MoodJournalEntries.userId := owner;
     MoodJournalEntries.entryDate := day * 86400000;
     MoodJournalEntries.moodScore := Some 7;
     MoodJournalEntries.moodLabel := Some "calm";
     MoodJournalEntries.tags := None;
     MoodJournalEntries.title := Some "A day";
     MoodJournalEntries.body := None;
     MoodJournalEntries.promptId := None;
     MoodJournalEntries.createdAt := 500;
     MoodJournalEntries.updatedAt := 500 |}.

Definition prompt (id : string) (owner : option string) (active : bool) : Prompt :=
  {| MoodPrompts.id := id;
     MoodPrompts.userId := owner;
     MoodPrompts.title := "Gratitude check-in";
     MoodPrompts.promptText := "What went well today?";
     MoodPrompts.category := Some "gratitude";
     MoodPrompts.isSystem := match owner with Some _ => false | None => true end;
     MoodPrompts.isActive := active;
     MoodPrompts.createdAt := 500;
     MoodPrompts.updatedAt := 500 |}.

(** Alice's diary: one entry of hers, one of Bob's. *)
Definition diary : World :=
  world [entry "e-alice" "alice" 3; entry "e-bob" "bob" 4]
        [prompt "p-alice" (Some "alice") true; prompt "p-bob" (Some "bob") true].

(** A store with one seeded global prompt, active. *)
Definition seeded : World := world [] [prompt "p-global" None true].

(** The same store once the global prompt has been switched off. *)
Definition seeded_off : World := world [] [prompt "p-global" None false].

(** Twenty-five entries of Alice, one per day, stored oldest first, with
    an entry of Bob in between. *)
Definition day_entry (owner : string) (n : nat) : Entry :=
  entry (String (ascii_of_nat (64 + n)) "") owner (Z.of_nat n).

Definition month : World :=
  world (map (day_entry "alice") (seq 1 12)
           ++ [entry "e-bob" "bob" 40]
           ++ map (day_entry "alice") (seq 13 13))
        [].

Definition score_five : UpdateEntry.input :=
  {| UpdateEntry.id := "e-alice";
     UpdateEntry.entryDate := None;
     UpdateEntry.moodScore := Given 5;
     UpdateEntry.moodLabel := Omitted;
     UpdateEntry.tags := Omitted;
     UpdateEntry.title := Omitted;
     UpdateEntry.body := Omitted;
     UpdateEntry.promptId := Omitted |}.

Definition score_five_payload : UpdateEntry.payload :=
  {| UpdateEntry.raw_id := Given "e-alice";
     UpdateEntry.raw_entryDate := Omitted;
     UpdateEntry.raw_moodScore := Given 5;
     UpdateEntry.raw_moodLabel := Omitted;
     UpdateEntry.raw_tags := Omitted;
     UpdateEntry.raw_title := Omitted;
     UpdateEntry.raw_body := Omitted;
     UpdateEntry.raw_promptId := Omitted |}.

Definition new_entry : CreateEntry.input :=
  {| CreateEntry.entryDate := Some "2024-02-29";
     CreateEntry.moodScore := Given 8;
     CreateEntry.moodLabel := Null;
     CreateEntry.tags := Omitted;
     CreateEntry.title := Given "Leap day";
     CreateEntry.body := Omitted;
     CreateEntry.promptId := Omitted |}.

Definition new_prompt : CreatePrompt.input :=
  {| CreatePrompt.title := "Evening";
     CreatePrompt.promptText := "What are you grateful for?";
     CreatePrompt.category := Omitted;
     CreatePrompt.isActive := None |}.

End Sample.

(** * Properties *)

(** ** Basic facts about the monad and the queries *)

Arguments Sql.where_ : simpl never.
Arguments Sql.orderBy_desc : simpl never.
Arguments Sql.limit : simpl never.
Arguments Sql.offset : simpl never.
Arguments Sql.limit_offset : simpl never.
Arguments Js.round : simpl never.
Arguments Sql.update_where : simpl never.
Arguments Sql.delete_where : simpl never.
Arguments own_entry : simpl never.
Arguments own_prompt : simpl never.
Arguments entry_of : simpl never.

Lemma requireUser_signed_in context u rt w :
  caller context = Some u -> requireUser context rt w = (Return u, w).
Proof.
  unfold caller, requireUser. intros ->. reflexivity.
Qed.

Lemma requireUser_anonymous context rt w :
  caller context = None -> requireUser context rt w = (Throw Unauthenticated, w).
Proof.
  unfold caller, requireUser. intros ->. reflexivity.
Qed.

Lemma bind_throw {A B} (m : Action A) (k : A -> Action B) e rt w w' :
  m rt w = (Throw e, w') -> bind m k rt w = (Throw e, w').
Proof.
  unfold bind. intros ->. reflexivity.
Qed.

Lemma bind_return {A B} (m : Action A) (k : A -> Action B) a rt w w' :
  m rt w = (Return a, w') -> bind m k rt w = k a rt w'.
Proof.
  unfold bind. intros ->. reflexivity.
Qed.

(** What [listEntries] does for a signed-in caller: two selects, and the
    page unless the store refuses the limit or the offset. *)
Lemma listEntries_run input context u rt w :
  caller context = Some u ->
  listEntries input context rt w
  = (match Sql.limit_offset (ListEntries.pageSize input)
             (Js.mul (Js.sub (ListEntries.page input) 1) (ListEntries.pageSize input))
             (Sql.orderBy_desc MoodJournalEntries.entryDate
                (Sql.where_ (entry_of u) (entries (db w)))) with
     | Some found =>
         Return (succeed
           {| items := found;
              total := Z.of_nat (List.length (Sql.where_ (entry_of u) (entries (db w))));
              page := ListEntries.page input;
              pageSize := ListEntries.pageSize input |})
     | None => Throw (DatatypeMismatch TEntries)
     end,
     sent (Select TEntries) (sent (Select TEntries) w)).
Proof.
  intros Hu. unfold listEntries, bind, Promise_all.
  rewrite (requireUser_signed_in context u rt w Hu). cbn.
  destruct (Sql.limit_offset _ _ _); cbn; [|reflexivity].
  now rewrite length_map.
Qed.

Lemma listEntries_world input context rt w :
  db (snd (listEntries input context rt w)) = db w /\
  exists l, journal (snd (listEntries input context rt w)) = (journal w ++ l)%list
            /\ (l = [] \/ l = [Select TEntries; Select TEntries]).
Proof.
  destruct (caller context) as [u|] eqn:Hu.
  - rewrite (listEntries_run _ _ _ _ _ Hu). cbn. split; [reflexivity|].
    exists [Select TEntries; Select TEntries]. rewrite <- app_assoc. cbn. auto.
  - unfold listEntries.
    rewrite (bind_throw _ _ _ _ _ _ (requireUser_anonymous context rt w Hu)). cbn.
    split; [reflexivity|]. exists []. rewrite app_nil_r. auto.
Qed.

Lemma listEntries_db input context rt w :
  db (snd (listEntries input context rt w)) = db w.
Proof. apply listEntries_world. Qed.

(** ** The authorization guard *)

(** C2. Whatever the action and whatever its input, a request that carries no
    user identity throws the [UNAUTHORIZED] error and leaves the world as it
    found it: the tables are the same and the journal of statements sent to
    the store has not grown. *)
Theorem unauthenticated_fails_before_any_store_access
  (Date_of_string : string -> Date) (context : ActionAPIContext)
  (rt : Runtime) (w : World) :
  caller context = None ->
  (forall i, createEntry Date_of_string i context rt w = (Throw Unauthenticated, w)) /\
  (forall i, updateEntry Date_of_string i context rt w = (Throw Unauthenticated, w)) /\
  (forall i, deleteEntry i context rt w = (Throw Unauthenticated, w)) /\
  (forall i, getEntry i context rt w = (Throw Unauthenticated, w)) /\
  (forall i, listEntries i context rt w = (Throw Unauthenticated, w)) /\
  (forall i, createPrompt i context rt w = (Throw Unauthenticated, w)) /\
  (forall i, updatePrompt i context rt w = (Throw Unauthenticated, w)) /\
  (forall i, listPrompts i context rt w = (Throw Unauthenticated, w)).
Proof.
  intros Hanon.
  pose proof (requireUser_anonymous context rt w Hanon) as Hguard.
  repeat split; intros i;
    [ unfold createEntry | unfold updateEntry | unfold deleteEntry
    | unfold getEntry | unfold listEntries | unfold createPrompt
    | unfold updatePrompt | unfold listPrompts ];
    apply bind_throw; exact Hguard.
Qed.

Lemma unauthenticated_fails_before_any_store_access_witness :
  caller Sample.no_user = None /\
  updateEntry Calendar.utc_midnight Sample.score_five Sample.no_user
    Sample.first_call Sample.diary
  = (Throw Unauthenticated, Sample.diary).
Proof.
  split; [reflexivity|].
  apply (unauthenticated_fails_before_any_store_access Calendar.utc_midnight
           Sample.no_user Sample.first_call Sample.diary).
  reflexivity.
Defined.

(** ** Ownership conditions *)

Lemma holds_own_entry id u r :
  Sql.holds (own_entry id u r) = entry_target id u r.
Proof.
  unfold own_entry, entry_target, entry_owned_by, Sql.eq, Sql.and, Sql.holds.
  destruct (String.eqb (MoodJournalEntries.id r) id),
    (String.eqb (MoodJournalEntries.userId r) (user_id u)); reflexivity.
Qed.

Lemma holds_own_prompt id u r :
  Sql.holds (own_prompt id u r) = prompt_target id u r.
Proof.
  unfold own_prompt, prompt_target, prompt_owned_by, Sql.eq, Sql.and, Sql.holds.
  destruct (MoodPrompts.userId r) as [owner|];
    destruct (String.eqb (MoodPrompts.id r) id);
    try destruct (String.eqb owner (user_id u)); reflexivity.
Qed.

Lemma holds_entry_of u r : Sql.holds (entry_of u r) = entry_owned_by u r.
Proof.
  unfold entry_of, entry_owned_by, Sql.eq, Sql.holds.
  destruct (String.eqb (MoodJournalEntries.userId r) (user_id u)); reflexivity.
Qed.

Lemma where_own_entry id u rows :
  Sql.where_ (own_entry id u) rows = filter (entry_target id u) rows.
Proof.
  unfold Sql.where_. apply filter_ext. intros r. apply holds_own_entry.
Qed.

Lemma where_own_prompt id u rows :
  Sql.where_ (own_prompt id u) rows = filter (prompt_target id u) rows.
Proof.
  unfold Sql.where_. apply filter_ext. intros r. apply holds_own_prompt.
Qed.

Lemma where_entry_of u rows :
  Sql.where_ (entry_of u) rows = filter (entry_owned_by u) rows.
Proof.
  unfold Sql.where_. apply filter_ext. intros r. apply holds_entry_of.
Qed.

Lemma filter_nothing {A} (f : A -> bool) (l : list A) :
  (forall x, In x l -> f x = false) -> filter f l = [].
Proof.
  induction l as [|x l IH]; intros H; simpl; [reflexivity|].
  rewrite (H x (or_introl eq_refl)). apply IH. intros y Hy. apply H. now right.
Qed.

Lemma filter_everything {A} (f : A -> bool) (l : list A) :
  (forall x, In x l -> f x = true) -> filter f l = l.
Proof.
  induction l as [|x l IH]; intros H; simpl; [reflexivity|].
  rewrite (H x (or_introl eq_refl)). f_equal. apply IH. intros y Hy. apply H. now right.
Qed.

Lemma not_own_entry_no_target id u w :
  not_own_entry id u w -> filter (entry_target id u) (entries (db w)) = [].
Proof.
  intros H. apply filter_nothing. intros r Hr.
  unfold entry_target, entry_owned_by.
  destruct (String.eqb_spec (MoodJournalEntries.id r) id) as [Hid|]; [|reflexivity].
  destruct (String.eqb_spec (MoodJournalEntries.userId r) (user_id u)) as [Ho|];
    [|reflexivity].
  exfalso. exact (H r Hr Hid Ho).
Qed.

Lemma not_own_prompt_no_target id u w :
  not_own_prompt id u w -> filter (prompt_target id u) (prompts (db w)) = [].
Proof.
  intros H. apply filter_nothing. intros r Hr.
  unfold prompt_target, prompt_owned_by.
  destruct (String.eqb_spec (MoodPrompts.id r) id) as [Hid|]; [|reflexivity].
  specialize (H r Hr Hid).
  destruct (MoodPrompts.userId r) as [owner|]; [|reflexivity].
  destruct (String.eqb_spec owner (user_id u)) as [Ho|]; [|reflexivity].
  exfalso. apply H. now rewrite Ho.
Qed.

(** ** Records of other owners *)

(** C3. When no record with the given id belongs to the caller (there is no
    such record, or its owner is someone else), [getEntry], [updateEntry],
    [deleteEntry] and [updatePrompt] throw [NOT_FOUND]; nothing is returned,
    and the store has only been read: both tables are what they were. *)
Theorem not_owned_is_not_found
  (Date_of_string : string -> Date) (context : ActionAPIContext) (u : User)
  (rt : Runtime) (w : World) (id : string) :
  caller context = Some u ->
  (not_own_entry id u w ->
     (forall i, GetEntry.id i = id ->
        exists w', getEntry i context rt w = (Throw EntryNotFound, w')
                   /\ only_read TEntries w w') /\
     (forall i, UpdateEntry.id i = id ->
        exists w', updateEntry Date_of_string i context rt w = (Throw EntryNotFound, w')
                   /\ only_read TEntries w w') /\
     (forall i, DeleteEntry.id i = id ->
        exists w', deleteEntry i context rt w = (Throw EntryNotFound, w')
                   /\ only_read TEntries w w')) /\
  (not_own_prompt id u w ->
     forall i, UpdatePrompt.id i = id ->
       exists w', updatePrompt i context rt w = (Throw PromptNotFound, w')
                  /\ only_read TPrompts w w').
Proof.
  intros Hu. pose proof (requireUser_signed_in context u rt w Hu) as Hguard.
  split.
  - intros Hnone. apply not_own_entry_no_target in Hnone.
    repeat split; intros i <-; eexists.
    + unfold getEntry, bind. rewrite Hguard. cbn.
      rewrite where_own_entry, Hnone. split; [reflexivity | split; reflexivity].
    + unfold updateEntry, bind. rewrite Hguard. cbn.
      rewrite where_own_entry, Hnone. split; [reflexivity | split; reflexivity].
    + unfold deleteEntry, bind. rewrite Hguard. cbn.
      rewrite where_own_entry, Hnone. split; [reflexivity | split; reflexivity].
  - intros Hnone i <-. apply not_own_prompt_no_target in Hnone. eexists.
    unfold updatePrompt, bind. rewrite Hguard. cbn.
    rewrite where_own_prompt, Hnone. split; [reflexivity | split; reflexivity].
Qed.

Lemma not_owned_is_not_found_witness :
  caller (Sample.signed_in Sample.alice) = Some Sample.alice /\
  not_own_entry "e-bob" Sample.alice Sample.diary /\
  exists w',
    deleteEntry {| DeleteEntry.id := "e-bob" |} (Sample.signed_in Sample.alice)
      Sample.first_call Sample.diary = (Throw EntryNotFound, w')
    /\ only_read TEntries Sample.diary w'.
Proof.
  assert (Hforeign : not_own_entry "e-bob" Sample.alice Sample.diary).
  { intros r [<-|[<-|[]]]; simpl; intros Hid; discriminate. }
  split; [reflexivity|]. split; [exact Hforeign|].
  apply (proj1 (not_owned_is_not_found Calendar.utc_midnight
                  (Sample.signed_in Sample.alice) Sample.alice
                  Sample.first_call Sample.diary "e-bob" eq_refl) Hforeign).
  reflexivity.
Defined.

(** ** Creation *)

Lemma existsb_nothing {A} (f : A -> bool) (l : list A) :
  (forall x, In x l -> f x = false) -> existsb f l = false.
Proof.
  induction l as [|x l IH]; intros H; simpl; [reflexivity|].
  rewrite (H x (or_introl eq_refl)). apply IH. intros y Hy. apply H. now right.
Qed.

Lemma existsb_nothing_inv {A} (f : A -> bool) (l : list A) (x : A) :
  existsb f l = false -> In x l -> f x = false.
Proof.
  intros E Hin. destruct (f x) eqn:Hx; [|reflexivity].
  assert (Hex : existsb f l = true) by (apply existsb_exists; now exists x).
  congruence.
Qed.

Lemma fresh_entry_id_unused id w :
  fresh_entry_id id w ->
  existsb (fun x => String.eqb (MoodJournalEntries.id x) id) (entries (db w)) = false.
Proof.
  intros H. apply existsb_nothing. intros r Hr.
  apply String.eqb_neq. exact (H r Hr).
Qed.

Lemma fresh_prompt_id_unused id w :
  fresh_prompt_id id w ->
  existsb (fun x => String.eqb (MoodPrompts.id x) id) (prompts (db w)) = false.
Proof.
  intros H. apply existsb_nothing. intros r Hr.
  apply String.eqb_neq. exact (H r Hr).
Qed.

Lemma fresh_entry_id_no_target id u w :
  fresh_entry_id id w -> filter (entry_target id u) (entries (db w)) = [].
Proof.
  intros H. apply filter_nothing. intros r Hr. unfold entry_target.
  rewrite (proj2 (String.eqb_neq _ _) (H r Hr)). reflexivity.
Qed.

(** C6. For a signed-in caller and an id from the generator that is not yet
    in the table, [createEntry] succeeds, and [getEntry] on the returned id,
    by the same caller and right after, succeeds and returns the very record
    [createEntry] returned: the same id, [createdAt], [updatedAt] and every
    other field.  This holds for every input, valid or not. *)
Theorem create_entry_then_get_entry
  (Date_of_string : string -> Date) (context : ActionAPIContext) (u : User)
  (rt rt' : Runtime) (w : World) (input : CreateEntry.input) :
  caller context = Some u ->
  fresh_entry_id (uuid rt) w ->
  exists (entry : Entry) (w1 : World),
    createEntry Date_of_string input context rt w = (Return (succeed entry), w1) /\
    getEntry {| GetEntry.id := MoodJournalEntries.id entry |} context rt' w1
    = (Return (succeed entry), sent (Select TEntries) w1).
Proof.
  intros Hu Hfresh.
  eexists. eexists. split.
  - unfold createEntry, bind.
    rewrite (requireUser_signed_in context u rt w Hu). cbn.
    unfold Store.insert_entry. cbn.
    rewrite (fresh_entry_id_unused _ _ Hfresh). reflexivity.
  - unfold getEntry, bind.
    rewrite (requireUser_signed_in context u rt' _ Hu). cbn.
    rewrite where_own_entry, filter_app, (fresh_entry_id_no_target _ u _ Hfresh).
    cbn. unfold entry_target, entry_owned_by. cbn.
    rewrite !String.eqb_refl. reflexivity.
Qed.

Lemma create_entry_then_get_entry_witness :
  caller (Sample.signed_in Sample.alice) = Some Sample.alice /\
  fresh_entry_id (uuid Sample.first_call) Sample.diary /\
  exists (entry : Entry) (w1 : World),
    createEntry Calendar.utc_midnight Sample.new_entry
      (Sample.signed_in Sample.alice) Sample.first_call Sample.diary
    = (Return (succeed entry), w1) /\
    getEntry {| GetEntry.id := MoodJournalEntries.id entry |}
      (Sample.signed_in Sample.alice) Sample.second_call w1
    = (Return (succeed entry), sent (Select TEntries) w1).
Proof.
  assert (Hfresh : fresh_entry_id (uuid Sample.first_call) Sample.diary).
  { intros r [<-|[<-|[]]]; simpl; discriminate. }
  split; [reflexivity|]. split; [exact Hfresh|].
  exact (create_entry_then_get_entry Calendar.utc_midnight
           (Sample.signed_in Sample.alice) Sample.alice Sample.first_call
           Sample.second_call Sample.diary Sample.new_entry eq_refl Hfresh).
Defined.

(** C8. For a signed-in caller and an id from the generator that is not yet
    in the table, [createPrompt] returns the record it has stored, as the
    last row of the prompt table.  In that record [isSystem] is [false]
    (the input has no such key), [isActive] is the given value, or [true]
    when none was given, the id is the generated one and differs from the id
    of every prompt stored before, and [createdAt] and [updatedAt] are both
    the time of the call.  Whatever id the generator hands out, a call that
    returns has stored a prompt under an id no earlier prompt had. *)
Theorem create_prompt_record
  (context : ActionAPIContext) (u : User) (rt : Runtime) (w : World)
  (input : CreatePrompt.input) :
  caller context = Some u ->
  fresh_prompt_id (uuid rt) w ->
  exists (prompt : Prompt) (w' : World),
    createPrompt input context rt w = (Return (succeed prompt), w') /\
    prompts (db w') = (prompts (db w) ++ [prompt])%list /\
    entries (db w') = entries (db w) /\
    MoodPrompts.isSystem prompt = false /\
    MoodPrompts.isActive prompt
      = match CreatePrompt.isActive input with Some b => b | None => true end /\
    MoodPrompts.id prompt = uuid rt /\
    (forall p, In p (prompts (db w)) -> MoodPrompts.id p <> MoodPrompts.id prompt) /\
    MoodPrompts.createdAt prompt = clock rt /\
    MoodPrompts.updatedAt prompt = clock rt /\
    MoodPrompts.userId prompt = Some (user_id u) /\
    MoodPrompts.title prompt = CreatePrompt.title input /\
    MoodPrompts.promptText prompt = CreatePrompt.promptText input /\
    MoodPrompts.category prompt
      = match CreatePrompt.category input with Given c => Some c | _ => None end /\
    (forall rt0 result w0,
        createPrompt input context rt0 w = (Return result, w0) ->
        fresh_prompt_id (MoodPrompts.id (data result)) w).
Proof.
  intros Hu Hfresh.
  eexists. eexists. split.
  - unfold createPrompt, bind.
    rewrite (requireUser_signed_in context u rt w Hu). cbn.
    unfold Store.insert_prompt. cbn.
    rewrite (fresh_prompt_id_unused _ _ Hfresh). reflexivity.
  - cbn. repeat split; try reflexivity; [exact Hfresh|].
    intros rt0 result w0. unfold createPrompt, bind.
    rewrite (requireUser_signed_in context u rt0 w Hu). cbn.
    unfold Store.insert_prompt. cbn.
    destruct (existsb _ _) eqn:Hused; [discriminate|].
    intros [= <- _]. cbn. intros p Hp.
    apply String.eqb_neq. exact (existsb_nothing_inv _ _ p Hused Hp).
Qed.

Lemma create_prompt_record_witness :
  caller (Sample.signed_in Sample.alice) = Some Sample.alice /\
  fresh_prompt_id (uuid Sample.first_call) Sample.diary /\
  exists (prompt : Prompt) (w' : World),
    createPrompt Sample.new_prompt (Sample.signed_in Sample.alice)
      Sample.first_call Sample.diary = (Return (succeed prompt), w') /\
    MoodPrompts.isSystem prompt = false /\
    MoodPrompts.isActive prompt = true.
Proof.
  assert (Hfresh : fresh_prompt_id (uuid Sample.first_call) Sample.diary).
  { intros r [<-|[<-|[]]]; simpl; discriminate. }
  split; [reflexivity|]. split; [exact Hfresh|].
  destruct (create_prompt_record (Sample.signed_in Sample.alice) Sample.alice
              Sample.first_call Sample.diary Sample.new_prompt eq_refl Hfresh)
    as (prompt & w' & Hrun & _ & _ & Hsys & Hact & _).
  exists prompt, w'. repeat split; assumption.
Defined.

(** ** Updates *)

Lemma filter_hit {A} (f : A -> bool) (l : list A) (x : A) :
  In x l -> f x = true -> exists y rest, filter f l = y :: rest.
Proof.
  intros Hin Hx.
  destruct (filter f l) as [|y rest] eqn:E; [|now exists y, rest].
  exfalso. assert (Hf : In x (filter f l)) by (apply filter_In; now split).
  rewrite E in Hf. exact Hf.
Qed.

(** What the schemas guarantee about the strings the handlers test for
    truthiness. *)

Ltac invert_schema H :=
  repeat match type of H with
         | and_then ?o _ = Some _ =>
             let E := fresh "E" in
             destruct o eqn:E; cbn [and_then] in H; [|discriminate H]
         end;
  injection H as <-.

Lemma is_date_nonempty s : Calendar.is_date s = true -> s <> "".
Proof.
  intros H ->. discriminate H.
Qed.

Lemma string_min_1_nonempty s : (1 <=? String.length s)%nat = true -> s <> "".
Proof.
  intros H ->. discriminate H.
Qed.

Lemma updateEntry_schema_date payload input :
  UpdateEntry.schema payload = Some input ->
  UpdateEntry.entryDate input <> Some "".
Proof.
  unfold UpdateEntry.schema. intros H. invert_schema H. cbn.
  unfold Zod.optional in E0.
  destruct (UpdateEntry.raw_entryDate payload) as [| |d]; try congruence.
  destruct (Zod.date d) eqn:Hd; [|discriminate E0].
  injection E0 as <-. intros [= ->]. discriminate Hd.
Qed.

Lemma updatePrompt_schema_strings payload input :
  UpdatePrompt.schema payload = Some input ->
  UpdatePrompt.title input <> Some "" /\ UpdatePrompt.promptText input <> Some "".
Proof.
  unfold UpdatePrompt.schema. intros H. invert_schema H. cbn.
  unfold Zod.optional in E0, E1. split.
  - destruct (UpdatePrompt.raw_title payload) as [| |d]; try congruence.
    destruct (Zod.string_min_max 1 120 d) eqn:Hd; [|discriminate E0].
    injection E0 as <-. intros [= ->]. discriminate Hd.
  - destruct (UpdatePrompt.raw_promptText payload) as [| |d]; try congruence.
    destruct (Zod.string_min 1 d) eqn:Hd; [|discriminate E1].
    injection E1 as <-. intros [= ->]. discriminate Hd.
Qed.

(** The [updateData] object, applied to a row, is the sparse patch. *)
Lemma entry_updateData_is_patch Date_of_string input now r :
  UpdateEntry.entryDate input <> Some "" ->
  MoodJournalEntries.set (entry_updateData Date_of_string input now) r
  = patched_entry Date_of_string input now r.
Proof.
  intros Hdate. unfold MoodJournalEntries.set, entry_updateData, patched_entry. cbn.
  f_equal.
  - destruct (UpdateEntry.entryDate input) as [s|]; [|reflexivity]. cbn.
    destruct (String.eqb_spec s ""); [congruence | reflexivity].
  - destruct (UpdateEntry.moodScore input); reflexivity.
  - destruct (UpdateEntry.moodLabel input); reflexivity.
  - destruct (UpdateEntry.tags input); reflexivity.
  - destruct (UpdateEntry.title input); reflexivity.
  - destruct (UpdateEntry.body input); reflexivity.
  - destruct (UpdateEntry.promptId input); reflexivity.
Qed.

Lemma prompt_updateData_is_patch input now r :
  UpdatePrompt.title input <> Some "" ->
  UpdatePrompt.promptText input <> Some "" ->
  MoodPrompts.set (prompt_updateData input now) r = patched_prompt input now r.
Proof.
  intros Ht Hp. unfold MoodPrompts.set, prompt_updateData, patched_prompt. cbn.
  f_equal.
  - destruct (UpdatePrompt.title input) as [s|]; [|reflexivity]. cbn.
    destruct (String.eqb_spec s ""); [congruence | reflexivity].
  - destruct (UpdatePrompt.promptText input) as [s|]; [|reflexivity]. cbn.
    destruct (String.eqb_spec s ""); [congruence | reflexivity].
  - destruct (UpdatePrompt.category input); reflexivity.
Qed.

Lemma patched_entry_empty Date_of_string id now r :
  patched_entry Date_of_string (empty_entry_patch id) now r = touched_entry now r.
Proof. reflexivity. Qed.

Lemma patched_prompt_empty id now r :
  patched_prompt (empty_prompt_patch id) now r = touched_prompt now r.
Proof. reflexivity. Qed.

Lemma update_where_own_entry set id u rows :
  Sql.update_where set (own_entry id u) rows
  = map (fun r => if entry_target id u r then set r else r) rows.
Proof.
  unfold Sql.update_where. apply map_ext. intros r. now rewrite holds_own_entry.
Qed.

Lemma update_where_own_prompt set id u rows :
  Sql.update_where set (own_prompt id u) rows
  = map (fun r => if prompt_target id u r then set r else r) rows.
Proof.
  unfold Sql.update_where. apply map_ext. intros r. now rewrite holds_own_prompt.
Qed.

(** [updateEntry] on a record of the caller: the statement it sends. *)
Lemma updateEntry_found Date_of_string input context u rt w :
  caller context = Some u ->
  (exists r, In r (entries (db w)) /\ entry_target (UpdateEntry.id input) u r = true) ->
  updateEntry Date_of_string input context rt w
  = (Return (succeed (UpdateEntry.id input)),
     {| db := {| entries :=
                   map (fun r => if entry_target (UpdateEntry.id input) u r
                                 then MoodJournalEntries.set
                                        (entry_updateData Date_of_string input (clock rt)) r
                                 else r) (entries (db w));
                 prompts := prompts (db w) |};
        journal := (journal w ++ [Select TEntries; Update TEntries])%list |}).
Proof.
  intros Hu (r & Hin & Hr).
  unfold updateEntry, bind. rewrite (requireUser_signed_in context u rt w Hu). cbn.
  rewrite where_own_entry.
  destruct (filter_hit _ _ _ Hin Hr) as (y & rest & ->). cbn.
  rewrite update_where_own_entry, <- app_assoc. reflexivity.
Qed.

Lemma updatePrompt_found input context u rt w :
  caller context = Some u ->
  (exists r, In r (prompts (db w)) /\ prompt_target (UpdatePrompt.id input) u r = true) ->
  updatePrompt input context rt w
  = (Return (succeed (UpdatePrompt.id input)),
     {| db := {| entries := entries (db w);
                 prompts :=
                   map (fun r => if prompt_target (UpdatePrompt.id input) u r
                                 then MoodPrompts.set
                                        (prompt_updateData input (clock rt)) r
                                 else r) (prompts (db w)) |};
        journal := (journal w ++ [Select TPrompts; Update TPrompts])%list |}).
Proof.
  intros Hu (r & Hin & Hr).
  unfold updatePrompt, bind. rewrite (requireUser_signed_in context u rt w Hu). cbn.
  rewrite where_own_prompt.
  destruct (filter_hit _ _ _ Hin Hr) as (y & rest & ->). cbn.
  rewrite update_where_own_prompt, <- app_assoc. reflexivity.
Qed.

(** C4. An update of a record of the caller, with an input the schema has
    let through, returns the id and rewrites exactly the targeted rows, each
    into its sparse patch: a key left out of the payload keeps the stored
    cell, a key that is present (also with [null]) overwrites it, and
    [updatedAt] becomes the time of the call.  With the payload [{ id }], that
    names no field, [updatedAt] is the only cell that changes.  This holds
    for [updateEntry] and for [updatePrompt]; the other table is untouched. *)
Theorem update_is_sparse_patch
  (Date_of_string : string -> Date) (context : ActionAPIContext) (u : User)
  (rt : Runtime) (w : World) :
  caller context = Some u ->
  (forall payload input,
      UpdateEntry.schema payload = Some input ->
      (exists r, In r (entries (db w))
                 /\ entry_target (UpdateEntry.id input) u r = true) ->
      exists w',
        updateEntry Date_of_string input context rt w
        = (Return (succeed (UpdateEntry.id input)), w') /\
        entries (db w')
        = map (fun r => if entry_target (UpdateEntry.id input) u r
                        then patched_entry Date_of_string input (clock rt) r
                        else r) (entries (db w)) /\
        prompts (db w') = prompts (db w)) /\
  (forall id,
      (exists r, In r (entries (db w)) /\ entry_target id u r = true) ->
      exists w',
        updateEntry Date_of_string (empty_entry_patch id) context rt w
        = (Return (succeed id), w') /\
        entries (db w')
        = map (fun r => if entry_target id u r then touched_entry (clock rt) r else r)
            (entries (db w)) /\
        prompts (db w') = prompts (db w)) /\
  (forall payload input,
      UpdatePrompt.schema payload = Some input ->
      (exists r, In r (prompts (db w))
                 /\ prompt_target (UpdatePrompt.id input) u r = true) ->
      exists w',
        updatePrompt input context rt w
        = (Return (succeed (UpdatePrompt.id input)), w') /\
        prompts (db w')
        = map (fun r => if prompt_target (UpdatePrompt.id input) u r
                        then patched_prompt input (clock rt) r
                        else r) (prompts (db w)) /\
        entries (db w') = entries (db w)) /\
  (forall id,
      (exists r, In r (prompts (db w)) /\ prompt_target id u r = true) ->
      exists w',
        updatePrompt (empty_prompt_patch id) context rt w
        = (Return (succeed id), w') /\
        prompts (db w')
        = map (fun r => if prompt_target id u r then touched_prompt (clock rt) r else r)
            (prompts (db w)) /\
        entries (db w') = entries (db w)).
Proof.
  intros Hu. repeat split.
  - intros payload input Hvalid Hfound.
    eexists. split; [exact (updateEntry_found _ _ _ _ _ _ Hu Hfound)|].
    split; [|reflexivity]. cbn. apply map_ext. intros r.
    rewrite entry_updateData_is_patch; [reflexivity|].
    exact (updateEntry_schema_date _ _ Hvalid).
  - intros id Hfound.
    eexists. split; [exact (updateEntry_found _ (empty_entry_patch id) _ _ _ _ Hu Hfound)|].
    split; reflexivity.
  - intros payload input Hvalid Hfound.
    eexists. split; [exact (updatePrompt_found _ _ _ _ _ Hu Hfound)|].
    split; [|reflexivity]. cbn. apply map_ext. intros r.
    destruct (updatePrompt_schema_strings _ _ Hvalid) as [Ht Hp].
    rewrite prompt_updateData_is_patch; [reflexivity| assumption ..].
  - intros id Hfound.
    eexists. split; [exact (updatePrompt_found (empty_prompt_patch id) _ _ _ _ Hu Hfound)|].
    split; reflexivity.
Qed.

Lemma update_is_sparse_patch_witness :
  caller (Sample.signed_in Sample.alice) = Some Sample.alice /\
  UpdateEntry.schema Sample.score_five_payload = Some Sample.score_five /\
  exists w',
    updateEntry Calendar.utc_midnight Sample.score_five
      (Sample.signed_in Sample.alice) Sample.first_call Sample.diary
    = (Return (succeed "e-alice"), w') /\
    entries (db w')
    = map (fun r => if entry_target "e-alice" Sample.alice r
                    then patched_entry Calendar.utc_midnight Sample.score_five 1000 r
                    else r) (entries (db Sample.diary)) /\
    prompts (db w') = prompts (db Sample.diary).
Proof.
  split; [reflexivity|]. split; [reflexivity|].
  apply (proj1 (update_is_sparse_patch Calendar.utc_midnight
                  (Sample.signed_in Sample.alice) Sample.alice
                  Sample.first_call Sample.diary eq_refl)
           Sample.score_five_payload Sample.score_five eq_refl).
  exists (Sample.entry "e-alice" "alice" 3). split; [left; reflexivity | reflexivity].
Defined.

(** ** Repeating an update *)

Lemma updateEntry_missing Date_of_string input context u rt w :
  caller context = Some u ->
  filter (entry_target (UpdateEntry.id input) u) (entries (db w)) = [] ->
  updateEntry Date_of_string input context rt w
  = (Throw EntryNotFound, sent (Select TEntries) w).
Proof.
  intros Hu Hnone.
  unfold updateEntry, bind. rewrite (requireUser_signed_in context u rt w Hu). cbn.
  rewrite where_own_entry, Hnone. reflexivity.
Qed.

Lemma entry_target_set id u p r :
  entry_target id u (MoodJournalEntries.set p r) = entry_target id u r.
Proof. reflexivity. Qed.

(** The same [updateData], built at a later time, only moves [updatedAt]. *)
Lemma entry_updateData_again Date_of_string input now now' r :
  MoodJournalEntries.set (entry_updateData Date_of_string input now')
    (MoodJournalEntries.set (entry_updateData Date_of_string input now) r)
  = touched_entry now'
      (MoodJournalEntries.set (entry_updateData Date_of_string input now) r).
Proof.
  unfold MoodJournalEntries.set, entry_updateData, touched_entry. cbn.
  f_equal.
  - destruct (UpdateEntry.entryDate input) as [s|]; [|reflexivity]. cbn.
    destruct (negb (String.eqb s "")); reflexivity.
  - destruct (UpdateEntry.moodScore input); reflexivity.
  - destruct (UpdateEntry.moodLabel input); reflexivity.
  - destruct (UpdateEntry.tags input); reflexivity.
  - destruct (UpdateEntry.title input); reflexivity.
  - destruct (UpdateEntry.body input); reflexivity.
  - destruct (UpdateEntry.promptId input); reflexivity.
Qed.

(** Applied after itself, an [updateData] hides its earlier application. *)
Lemma entry_updateData_absorbs Date_of_string input now now' r :
  MoodJournalEntries.set (entry_updateData Date_of_string input now')
    (MoodJournalEntries.set (entry_updateData Date_of_string input now) r)
  = MoodJournalEntries.set (entry_updateData Date_of_string input now') r.
Proof.
  unfold MoodJournalEntries.set, entry_updateData. cbn.
  f_equal.
  - destruct (UpdateEntry.entryDate input) as [s|]; [|reflexivity]. cbn.
    destruct (negb (String.eqb s "")); reflexivity.
  - destruct (UpdateEntry.moodScore input); reflexivity.
  - destruct (UpdateEntry.moodLabel input); reflexivity.
  - destruct (UpdateEntry.tags input); reflexivity.
  - destruct (UpdateEntry.title input); reflexivity.
  - destruct (UpdateEntry.body input); reflexivity.
  - destruct (UpdateEntry.promptId input); reflexivity.
Qed.

Lemma filter_none_inv {A} (f : A -> bool) (l : list A) (x : A) :
  filter f l = [] -> In x l -> f x = false.
Proof.
  intros E Hin. destruct (f x) eqn:Hx; [|reflexivity].
  assert (Hf : In x (filter f l)) by (apply filter_In; now split).
  rewrite E in Hf. destruct Hf.
Qed.

(** C7, as stated, fails: with the patch [{ moodScore: 5 }] sent twice to
    Alice's entry, at time 1000 and then at time 2000, the store after the
    second call is not the store after the first. *)
Lemma second_update_moves_updatedAt :
  let once :=
    snd (updateEntry Calendar.utc_midnight Sample.score_five
           (Sample.signed_in Sample.alice) Sample.first_call Sample.diary) in
  let twice :=
    snd (updateEntry Calendar.utc_midnight Sample.score_five
           (Sample.signed_in Sample.alice) Sample.second_call once) in
  db twice <> db once.
Proof.
  vm_compute. intros H. discriminate H.
Qed.

(** C7, amended. Sending the same patch to [updateEntry] a second time changes
    nothing in the store but [updatedAt] of the targeted record, which
    becomes the time of the second call; so the store after the two calls is
    the store that a single call, made at the time of the second, leaves. *)
Theorem update_entry_twice
  (Date_of_string : string -> Date) (context : ActionAPIContext) (u : User)
  (rt1 rt2 : Runtime) (w : World) (input : UpdateEntry.input) :
  caller context = Some u ->
  let once := snd (updateEntry Date_of_string input context rt1 w) in
  let twice := snd (updateEntry Date_of_string input context rt2 once) in
  entries (db twice)
  = map (fun r => if entry_target (UpdateEntry.id input) u r
                  then touched_entry (clock rt2) r else r) (entries (db once)) /\
  prompts (db twice) = prompts (db once) /\
  db twice = db (snd (updateEntry Date_of_string input context rt2 w)).
Proof.
  intros Hu once twice. subst once twice.
  destruct (filter (entry_target (UpdateEntry.id input) u) (entries (db w)))
    as [|y rest] eqn:Hsel.
  - rewrite !(updateEntry_missing _ _ _ _ _ w Hu Hsel). cbn.
    rewrite (updateEntry_missing _ _ _ _ _ (sent (Select TEntries) w) Hu Hsel). cbn.
    repeat split.
    symmetry. rewrite <- (map_id (entries (db w))) at 2.
    apply map_ext_in. intros r Hr.
    now rewrite (filter_none_inv _ _ r Hsel Hr).
  - assert (Hfound : exists r, In r (entries (db w))
                       /\ entry_target (UpdateEntry.id input) u r = true).
    { exists y. apply filter_In. rewrite Hsel. now left. }
    rewrite !(updateEntry_found _ _ _ _ _ w Hu Hfound). cbn.
    destruct Hfound as (r0 & Hin0 & Ht0).
    rewrite updateEntry_found with (u := u); [|exact Hu|].
    + cbn. rewrite !map_map. repeat split.
      * apply map_ext. intros r.
        destruct (entry_target (UpdateEntry.id input) u r) eqn:Hr.
        -- rewrite entry_target_set, Hr. apply entry_updateData_again.
        -- now rewrite Hr.
      * f_equal. apply map_ext. intros r.
        destruct (entry_target (UpdateEntry.id input) u r) eqn:Hr.
        -- rewrite entry_target_set, Hr. apply entry_updateData_absorbs.
        -- now rewrite Hr.
    + cbn. exists (MoodJournalEntries.set
                     (entry_updateData Date_of_string input (clock rt1)) r0).
      split; [|now rewrite entry_target_set].
      apply in_map_iff. exists r0. now rewrite Ht0.
Qed.

Lemma update_entry_twice_witness :
  caller (Sample.signed_in Sample.alice) = Some Sample.alice /\
  let once :=
    snd (updateEntry Calendar.utc_midnight Sample.score_five
           (Sample.signed_in Sample.alice) Sample.first_call Sample.diary) in
  let twice :=
    snd (updateEntry Calendar.utc_midnight Sample.score_five
           (Sample.signed_in Sample.alice) Sample.second_call once) in
  entries (db twice)
  = map (fun r => if entry_target "e-alice" Sample.alice r
                  then touched_entry 2000 r else r) (entries (db once)).
Proof.
  split; [reflexivity|].
  exact (proj1 (update_entry_twice Calendar.utc_midnight
                  (Sample.signed_in Sample.alice) Sample.alice
                  Sample.first_call Sample.second_call Sample.diary
                  Sample.score_five eq_refl)).
Defined.

(** ** Prompt listing *)

Lemma holds_listPrompts_filter u inc r :
  Sql.holds
    (if truthy_bool inc
     then Sql.or (Sql.eq String.eqb (MoodPrompts.userId r) (Some (user_id u)))
                 (Sql.eq String.eqb (MoodPrompts.userId r) None)
     else Sql.and (Sql.eq Bool.eqb (Some (MoodPrompts.isActive r)) (Some true))
                  (Sql.or (Sql.eq String.eqb (MoodPrompts.userId r) (Some (user_id u)))
                          (Sql.eq String.eqb (MoodPrompts.userId r) None)))
  = prompt_owned_by u r && (truthy_bool inc || MoodPrompts.isActive r).
Proof.
  unfold prompt_owned_by, Sql.eq, Sql.or, Sql.and, Sql.holds.
  destruct (truthy_bool inc), (MoodPrompts.userId r) as [owner|],
    (MoodPrompts.isActive r); cbn;
    try destruct (String.eqb owner (user_id u)); reflexivity.
Qed.

(** What [listPrompts] lists: the prompts whose [userId] is the caller's,
    active ones only unless inactive ones are asked for, newest first.  The
    comparison [userId = NULL] is never true, so no global prompt passes. *)
Lemma listPrompts_lists_own_prompts input context u rt w :
  caller context = Some u ->
  exists listed,
    listPrompts input context rt w
    = (Return (succeed {| prompt_items := listed;
                          prompt_total := Z.of_nat (List.length listed) |}),
       sent (Select TPrompts) w) /\
    listed
    = Sql.orderBy_desc MoodPrompts.createdAt
        (filter (fun r => prompt_owned_by u r
                          && (truthy_bool (ListPrompts.includeInactive input)
                              || MoodPrompts.isActive r))
           (prompts (db w))).
Proof.
  intros Hu. eexists. split.
  - unfold listPrompts, bind. rewrite (requireUser_signed_in context u rt w Hu).
    cbn. reflexivity.
  - f_equal. unfold Sql.where_. apply filter_ext. intros r.
    apply holds_listPrompts_filter.
Qed.

(** C1 (the code departs from it). A store holds one seeded global prompt,
    active.  The specification lists it for Alice, but [listPrompts] returns
    no item and [total = 0], with [includeInactive] unset and with
    [includeInactive = true] alike; once the prompt is switched off, it is
    not listed with [includeInactive = true] either. *)
Theorem global_prompt_is_not_listed :
  filter (visible_prompt Sample.alice false) (prompts (db Sample.seeded))
  = [Sample.prompt "p-global" None true] /\
  listPrompts {| ListPrompts.includeInactive := None |}
    (Sample.signed_in Sample.alice) Sample.first_call Sample.seeded
  = (Return (succeed {| prompt_items := []; prompt_total := 0 |}),
     sent (Select TPrompts) Sample.seeded) /\
  listPrompts {| ListPrompts.includeInactive := Some true |}
    (Sample.signed_in Sample.alice) Sample.first_call Sample.seeded
  = (Return (succeed {| prompt_items := []; prompt_total := 0 |}),
     sent (Select TPrompts) Sample.seeded) /\
  filter (visible_prompt Sample.alice true) (prompts (db Sample.seeded_off))
  = [Sample.prompt "p-global" None false] /\
  listPrompts {| ListPrompts.includeInactive := Some true |}
    (Sample.signed_in Sample.alice) Sample.first_call Sample.seeded_off
  = (Return (succeed {| prompt_items := []; prompt_total := 0 |}),
     sent (Select TPrompts) Sample.seeded_off).
Proof.
  repeat split; reflexivity.
Qed.

(** ** Owners of prompts *)

Ltac by_caller context rt w :=
  let u := fresh "u" in
  let Hcaller := fresh "Hcaller" in
  destruct (caller context) as [u|] eqn:Hcaller;
  [ rewrite (requireUser_signed_in context u rt w Hcaller)
  | rewrite (requireUser_anonymous context rt w Hcaller) ].

Lemma prompt_owners_update p (t : Prompt -> bool) rows :
  map (fun r => (MoodPrompts.id r, MoodPrompts.userId r))
    (map (fun r => if t r then MoodPrompts.set p r else r) rows)
  = map (fun r => (MoodPrompts.id r, MoodPrompts.userId r)) rows.
Proof.
  rewrite map_map. apply map_ext. intros r. destruct (t r); reflexivity.
Qed.

(** The actions on entries leave the prompt table alone. *)
Lemma entry_actions_keep_prompts Date_of_string context rt w :
  (forall i, prompts (db (snd (createEntry Date_of_string i context rt w)))
             = prompts (db w)) /\
  (forall i, prompts (db (snd (updateEntry Date_of_string i context rt w)))
             = prompts (db w)) /\
  (forall i, prompts (db (snd (deleteEntry i context rt w))) = prompts (db w)) /\
  (forall i, prompts (db (snd (getEntry i context rt w))) = prompts (db w)) /\
  (forall i, prompts (db (snd (listEntries i context rt w))) = prompts (db w)).
Proof.
  repeat split; intros i.
  - unfold createEntry, bind. by_caller constr:(context) rt w; [|reflexivity]. cbn.
    unfold Store.insert_entry.
    match goal with |- context [existsb ?f ?l] => destruct (existsb f l) end;
      reflexivity.
  - unfold updateEntry, bind. by_caller constr:(context) rt w; [|reflexivity]. cbn.
    destruct (Sql.where_ _ _); reflexivity.
  - unfold deleteEntry, bind. by_caller constr:(context) rt w; [|reflexivity]. cbn.
    destruct (map _ _); reflexivity.
  - unfold getEntry, bind. by_caller constr:(context) rt w; [|reflexivity]. cbn.
    destruct (Sql.where_ _ _); reflexivity.
  - now rewrite listEntries_db.
Qed.

Lemma createPrompt_owners input context rt w :
  prompt_owners (snd (createPrompt input context rt w)) = prompt_owners w \/
  exists u, caller context = Some u /\
            prompt_owners (snd (createPrompt input context rt w))
            = (prompt_owners w ++ [(uuid rt, Some (user_id u))])%list.
Proof.
  unfold createPrompt, bind. by_caller constr:(context) rt w; [|now left]. cbn.
  unfold Store.insert_prompt.
  match goal with |- context [existsb ?f ?l] => destruct (existsb f l) end.
  - now left.
  - right. exists u. split; [reflexivity|].
    unfold prompt_owners. cbn. now rewrite map_app.
Qed.

Lemma updatePrompt_owners input context rt w :
  prompt_owners (snd (updatePrompt input context rt w)) = prompt_owners w.
Proof.
  unfold updatePrompt, bind. by_caller constr:(context) rt w; [|reflexivity]. cbn.
  destruct (Sql.where_ _ _); [reflexivity|]. cbn.
  unfold prompt_owners, Sql.update_where. cbn. apply prompt_owners_update.
Qed.

Lemma listPrompts_owners input context rt w :
  prompt_owners (snd (listPrompts input context rt w)) = prompt_owners w.
Proof.
  unfold listPrompts, bind. by_caller constr:(context) rt w; reflexivity.
Qed.

(** One request either keeps the owner of every prompt, or adds one prompt
    owned by the caller. *)
Lemma after_prompt_owners Date_of_string q w :
  prompt_owners (after Date_of_string q w) = prompt_owners w \/
  exists u, caller (req_context q) = Some u /\
            prompt_owners (after Date_of_string q w)
            = (prompt_owners w ++ [(uuid (req_runtime q), Some (user_id u))])%list.
Proof.
  destruct (entry_actions_keep_prompts Date_of_string (req_context q) (req_runtime q) w)
    as (Hce & Hue & Hde & Hge & Hle).
  unfold after. destruct (req_call q) as [i|i|i|i|i|i|i|i].
  - left. unfold prompt_owners. now rewrite Hce.
  - left. unfold prompt_owners. now rewrite Hue.
  - left. unfold prompt_owners. now rewrite Hde.
  - left. unfold prompt_owners. now rewrite Hge.
  - left. unfold prompt_owners. now rewrite Hle.
  - apply createPrompt_owners.
  - left. apply updatePrompt_owners.
  - left. apply listPrompts_owners.
Qed.

Lemma no_global_prompt_owners w :
  no_global_prompt w <-> Forall (fun o => snd o <> None) (prompt_owners w).
Proof.
  unfold no_global_prompt, prompt_owners. rewrite Forall_forall. split.
  - intros H o Ho. apply in_map_iff in Ho as (p & <- & Hp). cbn. now apply H.
  - intros H p Hp.
    apply (H (MoodPrompts.id p, MoodPrompts.userId p)).
    apply in_map_iff. now exists p.
Qed.

Lemma after_no_global_prompt Date_of_string q w :
  no_global_prompt w -> no_global_prompt (after Date_of_string q w).
Proof.
  rewrite !no_global_prompt_owners. intros H.
  destruct (after_prompt_owners Date_of_string q w) as [-> | (u & _ & ->)];
    [exact H|].
  apply Forall_app. split; [exact H|]. constructor; [|constructor].
  cbn. discriminate.
Qed.

(** C10. A prompt that [createPrompt] returns is owned by the caller: its
    [userId] is the caller's id, never null.  Every request, whatever the
    action, either keeps the id and owner of every stored prompt or adds one
    prompt owned by its caller.  Hence a prompt table without global prompts
    stays without them under any sequence of requests. *)
Theorem no_global_prompt_from_the_api (Date_of_string : string -> Date) :
  (forall input context rt w result w',
      createPrompt input context rt w = (Return result, w') ->
      exists u, caller context = Some u /\
                MoodPrompts.userId (data result) = Some (user_id u)) /\
  (forall q w,
      prompt_owners (after Date_of_string q w) = prompt_owners w \/
      exists u, caller (req_context q) = Some u /\
                prompt_owners (after Date_of_string q w)
                = (prompt_owners w ++ [(uuid (req_runtime q), Some (user_id u))])%list) /\
  (forall qs w,
      no_global_prompt w -> no_global_prompt (after_all Date_of_string qs w)).
Proof.
  repeat split.
  - intros input context rt w result w'.
    unfold createPrompt, bind. by_caller constr:(context) rt w; [|discriminate]. cbn.
    unfold Store.insert_prompt.
    match goal with |- context [existsb ?f ?l] => destruct (existsb f l) end;
      [discriminate|].
    cbn. intros [= <- _]. exists u. split; reflexivity.
  - apply after_prompt_owners.
  - intros qs. unfold after_all.
    induction qs as [|q qs IH]; intros w Hw; cbn; [exact Hw|].
    apply IH. now apply after_no_global_prompt.
Qed.

Lemma no_global_prompt_from_the_api_witness :
  no_global_prompt Sample.diary /\
  no_global_prompt
    (after_all Calendar.utc_midnight
       [ {| req_call := CallCreatePrompt Sample.new_prompt;
            req_context := Sample.signed_in Sample.alice;
            req_runtime := Sample.first_call |};
         {| req_call := CallUpdatePrompt (empty_prompt_patch "uuid-1");
            req_context := Sample.signed_in Sample.alice;
            req_runtime := Sample.second_call |} ]
       Sample.diary).
Proof.
  assert (H : no_global_prompt Sample.diary).
  { intros p [<-|[<-|[]]]; discriminate. }
  split; [exact H|].
  exact (proj2 (proj2 (no_global_prompt_from_the_api Calendar.utc_midnight)) _ _ H).
Defined.

(** ** Paging through entries *)

Section OrderBy.

Context {R : Type} (key : R -> Z).

Lemma insert_desc_perm r rows :
  Permutation (r :: rows) (Sql.insert_desc key r rows).
Proof.
  induction rows as [|x rows IH]; cbn; [reflexivity|].
  destruct (key x <=? key r); [reflexivity|].
  rewrite perm_swap. now constructor.
Qed.

Lemma orderBy_desc_perm rows : Permutation (Sql.orderBy_desc key rows) rows.
Proof.
  unfold Sql.orderBy_desc.
  induction rows as [|x rows IH]; cbn; [reflexivity|].
  rewrite <- insert_desc_perm. now constructor.
Qed.

Lemma insert_desc_sorted r rows :
  StronglySorted (descending key) rows ->
  StronglySorted (descending key) (Sql.insert_desc key r rows).
Proof.
  induction 1 as [|x rows Hsorted IH Hx]; cbn.
  - repeat constructor.
  - destruct (Z.leb_spec (key x) (key r)) as [Hle|Hgt].
    + constructor; [now constructor|].
      constructor; [exact Hle|].
      eapply Forall_impl; [|exact Hx]. unfold descending. cbn. intros y Hy. lia.
    + constructor; [exact IH|].
      rewrite <- insert_desc_perm. constructor; [unfold descending; lia | exact Hx].
Qed.

Lemma orderBy_desc_sorted rows :
  StronglySorted (descending key) (Sql.orderBy_desc key rows).
Proof.
  unfold Sql.orderBy_desc.
  induction rows as [|x rows IH]; cbn; [constructor|].
  now apply insert_desc_sorted.
Qed.

End OrderBy.

(** Numbers within the safe range are exact, and the store takes them. *)

Lemma round_safe n : Z.abs n <= 2 ^ 53 -> Js.round n = n.
Proof.
  intros H. unfold Js.round. destruct (Z.leb_spec (Z.abs n) (2 ^ 53)); [reflexivity | lia].
Qed.

Lemma offset_safe page size :
  1 <= page -> 1 <= size ->
  (page - 1) * size <= Js.MAX_SAFE_INTEGER ->
  Js.mul (Js.sub page 1) size = (page - 1) * size.
Proof.
  unfold Js.MAX_SAFE_INTEGER, Js.mul, Js.sub.
  change (2 ^ 53) with 9007199254740992. intros Hpage Hsize Hsafe.
  assert (0 <= (page - 1) * size) by (apply Z.mul_nonneg_nonneg; lia).
  assert (page - 1 <= (page - 1) * size) by nia.
  rewrite (round_safe (page - 1)) by (change (2 ^ 53) with 9007199254740992; lia).
  apply round_safe. change (2 ^ 53) with 9007199254740992. lia.
Qed.

Lemma integer_spec n :
  Sql.integer n = true <-> - 9223372036854775808 < n < 9223372036854775807.
Proof.
  unfold Sql.integer. change (2 ^ 63) with 9223372036854775808.
  rewrite andb_true_iff, !Z.ltb_lt. lia.
Qed.

Lemma skip_skipn {R} (n : Z) (rows : list R) :
  Sql.skip n rows = skipn (Z.to_nat n) rows.
Proof.
  revert n. induction rows as [|x rows IH]; intros n; cbn.
  - now rewrite skipn_nil.
  - destruct (Z.leb_spec n 0) as [Hle|Hgt].
    + now replace (Z.to_nat n) with 0%nat by lia.
    + replace (Z.to_nat n) with (S (Z.to_nat (n - 1))) by lia. apply IH.
Qed.

Lemma take_firstn {R} (n : Z) (rows : list R) :
  Sql.take n rows = firstn (Z.to_nat n) rows.
Proof.
  revert n. induction rows as [|x rows IH]; intros n; cbn.
  - now rewrite firstn_nil.
  - destruct (Z.leb_spec n 0) as [Hle|Hgt].
    + now replace (Z.to_nat n) with 0%nat by lia.
    + replace (Z.to_nat n) with (S (Z.to_nat (n - 1))) by lia. cbn. now rewrite IH.
Qed.

Lemma limit_offset_taken {R} (n k : Z) (rows : list R) :
  0 <= n < 9223372036854775807 ->
  0 <= k < 9223372036854775807 ->
  Sql.limit_offset n k rows = Some (firstn (Z.to_nat n) (skipn (Z.to_nat k) rows)).
Proof.
  intros Hn Hk. unfold Sql.limit_offset, Sql.offset, Sql.limit.
  rewrite (proj2 (integer_spec k)) by lia.
  rewrite (proj2 (integer_spec n)) by lia.
  destruct (Z.ltb_spec n 0); [lia|]. now rewrite skip_skipn, take_firstn.
Qed.

Lemma limit_offset_refused {R} (n k : Z) (rows : list R) :
  9223372036854775807 <= k -> Sql.limit_offset n k rows = None.
Proof.
  intros Hk. unfold Sql.limit_offset, Sql.offset.
  destruct (Sql.integer k) eqn:E; [|reflexivity].
  apply integer_spec in E. lia.
Qed.

Lemma round_nonneg n : 0 <= n -> 0 <= Js.round n.
Proof.
  intros Hn. unfold Js.round.
  destruct (Z.abs n <=? 2 ^ 53); [exact Hn|].
  apply Z.mul_nonneg_nonneg; [now apply Z.sgn_nonneg|].
  assert (Hunit : 0 <= 2 ^ (Z.log2 (Z.abs n) - 52)) by (apply Z.pow_nonneg; lia).
  assert (Hq : 0 <= Z.abs n / 2 ^ (Z.log2 (Z.abs n) - 52))
    by (apply Z_div_nonneg_nonneg; [apply Z.abs_nonneg | exact Hunit]).
  apply Z.mul_nonneg_nonneg; [|exact Hunit].
  repeat match goal with |- context [if ?c then _ else _] => destruct c end; lia.
Qed.

(** C5, as stated, fails: the schema lets the page 10^18 through, and with
    the default page size the offset it asks the store for is no 64-bit
    integer; [listEntries] throws what the store throws, and returns no
    page and no total. *)
Lemma page_out_of_range_is_refused :
  ListEntries.schema {| ListEntries.raw_page := Given 1000000000000000000;
                        ListEntries.raw_pageSize := Omitted |}
  = Some {| ListEntries.page := 1000000000000000000; ListEntries.pageSize := 20 |} /\
  listEntries {| ListEntries.page := 1000000000000000000; ListEntries.pageSize := 20 |}
    (Sample.signed_in Sample.alice) Sample.first_call Sample.month
  = (Throw (DatatypeMismatch TEntries),
     sent (Select TEntries) (sent (Select TEntries) Sample.month)).
Proof.
  split; vm_compute; reflexivity.
Qed.

(** C5, amended. For a signed-in caller and an input the schema has let
    through ([page] at least 1, 1 when left out; [pageSize] from 1 to 100, 20
    when left out), [listEntries] computes the offset [(page - 1) * pageSize]
    in double precision; it is the exact product whenever that is a safe
    integer, at most 2^53 - 1.  When the offset is below 2^63 - 1, the call
    returns a window of the caller's entries put newest first: it skips as
    many of them as the offset says and keeps at most [pageSize]; [total] is
    the number of all entries of the caller, whatever the window.  When the
    offset is 2^63 - 1 or more, the store refuses the query and the call
    throws.  Either way the store is only read. *)
Theorem list_entries_page
  (context : ActionAPIContext) (u : User) (rt : Runtime) (w : World)
  (payload : ListEntries.payload) (input : ListEntries.input) :
  caller context = Some u ->
  ListEntries.schema payload = Some input ->
  let offset :=
    Js.mul (Js.sub (ListEntries.page input) 1) (ListEntries.pageSize input) in
  ListEntries.page input
    = match ListEntries.raw_page payload with Given p => p | _ => 1 end /\
  ListEntries.pageSize input
    = match ListEntries.raw_pageSize payload with Given n => n | _ => 20 end /\
  1 <= ListEntries.page input /\
  1 <= ListEntries.pageSize input <= 100 /\
  0 <= offset /\
  ((ListEntries.page input - 1) * ListEntries.pageSize input <= Js.MAX_SAFE_INTEGER ->
   offset = (ListEntries.page input - 1) * ListEntries.pageSize input) /\
  exists sorted : list Entry,
    Permutation sorted (filter (entry_owned_by u) (entries (db w))) /\
    newest_first sorted /\
    (offset < 2 ^ 63 - 1 ->
     exists w' : World,
       listEntries input context rt w
       = (Return (succeed
            {| items :=
                 firstn (Z.to_nat (ListEntries.pageSize input))
                   (skipn (Z.to_nat offset) sorted);
               total :=
                 Z.of_nat (List.length (filter (entry_owned_by u) (entries (db w))));
               page := ListEntries.page input;
               pageSize := ListEntries.pageSize input |}), w') /\
       db w' = db w) /\
    (2 ^ 63 - 1 <= offset ->
     exists w' : World,
       listEntries input context rt w = (Throw (DatatypeMismatch TEntries), w') /\
       db w' = db w).
Proof.
  intros Hu Hvalid offset.
  unfold ListEntries.schema in Hvalid. invert_schema Hvalid.
  cbn [ListEntries.page ListEntries.pageSize] in *.
  assert (Hpage : z = match ListEntries.raw_page payload with Given p => p | _ => 1 end
                  /\ 1 <= z).
  { unfold Zod.default, Zod.int_min in E.
    destruct (ListEntries.raw_page payload) as [| |p]; try congruence.
    - injection E as <-. split; [reflexivity | lia].
    - destruct (Z.leb_spec 1 p); [|discriminate E]. injection E as <-. now split. }
  assert (Hsize : z0 = match ListEntries.raw_pageSize payload with
                       | Given n => n | _ => 20 end
                  /\ 1 <= z0 <= 100).
  { unfold Zod.default, Zod.int_min_max in E0.
    destruct (ListEntries.raw_pageSize payload) as [| |n]; try congruence.
    - injection E0 as <-. split; [reflexivity | lia].
    - destruct (Z.leb_spec 1 n), (Z.leb_spec n 100); try discriminate E0.
      injection E0 as <-. split; [reflexivity | lia]. }
  destruct Hpage as [Hpage Hpage1]. destruct Hsize as [Hsize Hsize1].
  assert (Hoffset : 0 <= offset).
  { subst offset. unfold Js.mul, Js.sub. apply round_nonneg.
    apply Z.mul_nonneg_nonneg; [apply round_nonneg|]; lia. }
  split; [exact Hpage|]. split; [exact Hsize|]. split; [exact Hpage1|].
  split; [exact Hsize1|]. split; [exact Hoffset|].
  split; [intros Hsafe; subst offset; apply offset_safe; (assumption || lia)|].
  exists (Sql.orderBy_desc MoodJournalEntries.entryDate
            (filter (entry_owned_by u) (entries (db w)))).
  split; [apply orderBy_desc_perm|].
  split; [apply orderBy_desc_sorted|].
  change (2 ^ 63) with 9223372036854775808.
  split; intros Hrange;
    exists (sent (Select TEntries) (sent (Select TEntries) w));
    (split; [|reflexivity]);
    rewrite (listEntries_run _ _ _ _ _ Hu);
    cbn [ListEntries.page ListEntries.pageSize]; fold offset; clearbody offset.
  - rewrite limit_offset_taken by lia. now rewrite !where_entry_of.
  - rewrite limit_offset_refused by lia. reflexivity.
Qed.

(** Page 2 of size 10 over the 25 entries of Alice: the entries of days 15
    down to 6, the 11th to the 20th newest, and [total = 25]. *)
Example list_entries_second_page :
  fst (listEntries {| ListEntries.page := 2; ListEntries.pageSize := 10 |}
         (Sample.signed_in Sample.alice) Sample.first_call Sample.month)
  = Return (succeed
      {| items := map (Sample.day_entry "alice") (rev (seq 6 10));
         total := 25;
         page := 2;
         pageSize := 10 |}).
Proof. vm_compute. reflexivity. Qed.

Lemma list_entries_page_witness :
  caller (Sample.signed_in Sample.alice) = Some Sample.alice /\
  ListEntries.schema {| ListEntries.raw_page := Given 2;
                        ListEntries.raw_pageSize := Given 10 |}
  = Some {| ListEntries.page := 2; ListEntries.pageSize := 10 |} /\
  exists (sorted : list Entry) (w' : World),
    Permutation sorted (filter (entry_owned_by Sample.alice) (entries (db Sample.month))) /\
    newest_first sorted /\
    listEntries {| ListEntries.page := 2; ListEntries.pageSize := 10 |}
      (Sample.signed_in Sample.alice) Sample.first_call Sample.month
    = (Return (succeed
         {| items := firstn 10 (skipn 10 sorted);
            total := 25;
            page := 2;
            pageSize := 10 |}), w') /\
    db w' = db Sample.month.
Proof.
  split; [reflexivity|]. split; [reflexivity|].
  destruct (list_entries_page (Sample.signed_in Sample.alice) Sample.alice
              Sample.first_call Sample.month
              {| ListEntries.raw_page := Given 2; ListEntries.raw_pageSize := Given 10 |}
              {| ListEntries.page := 2; ListEntries.pageSize := 10 |}
              eq_refl eq_refl)
    as (_ & _ & _ & _ & _ & _ & sorted & Hperm & Hsorted & Hreturns & _).
  destruct Hreturns as (w' & Hrun & Hdb); [vm_compute; reflexivity|].
  exists sorted, w'. repeat split; assumption.
Defined.

(** ** The date of an entry *)

(** The actions on prompts leave the entry table alone. *)
Lemma prompt_actions_keep_entries context rt w :
  (forall i, entries (db (snd (createPrompt i context rt w))) = entries (db w)) /\
  (forall i, entries (db (snd (updatePrompt i context rt w))) = entries (db w)) /\
  (forall i, entries (db (snd (listPrompts i context rt w))) = entries (db w)).
Proof.
  repeat split; intros i.
  - unfold createPrompt, bind. by_caller constr:(context) rt w; [|reflexivity]. cbn.
    unfold Store.insert_prompt.
    match goal with |- context [existsb ?f ?l] => destruct (existsb f l) end;
      reflexivity.
  - unfold updatePrompt, bind. by_caller constr:(context) rt w; [|reflexivity]. cbn.
    destruct (Sql.where_ _ _); reflexivity.
  - unfold listPrompts, bind. by_caller constr:(context) rt w; reflexivity.
Qed.

Lemma date_origin_kept Date_of_string q w r' :
  In r' (entries (db w)) -> date_origin Date_of_string q w r'.
Proof.
  intros Hin. left. exists r'. repeat split. exact Hin.
Qed.

Lemma createEntry_date_origin Date_of_string i context rt w r' :
  In r' (entries (db (snd (createEntry Date_of_string i context rt w)))) ->
  date_origin Date_of_string
    {| req_call := CallCreateEntry i; req_context := context; req_runtime := rt |} w r'.
Proof.
  unfold createEntry, bind. by_caller constr:(context) rt w;
    [|(cbn; apply date_origin_kept)]. cbn.
  unfold Store.insert_entry.
  match goal with |- context [existsb ?f ?l] => destruct (existsb f l) end;
    [(cbn; apply date_origin_kept)|].
  cbn. intros Hin. apply in_app_or in Hin as [Hold|[<-|[]]];
    [now apply date_origin_kept|].
  right. cbn. destruct (CreateEntry.entryDate i) as [s|] eqn:Hs.
  - destruct (String.eqb_spec s "") as [->|Hne]; cbn.
    + right. split; [now exists i | reflexivity].
    + left. exists s. repeat split; assumption.
  - right. split; [now exists i | reflexivity].
Qed.

Lemma patched_entryDate Date_of_string i now r :
  MoodJournalEntries.entryDate
    (MoodJournalEntries.set (entry_updateData Date_of_string i now) r)
  = match UpdateEntry.entryDate i with
    | Some s => if String.eqb s "" then MoodJournalEntries.entryDate r
                else Date_of_string s
    | None => MoodJournalEntries.entryDate r
    end.
Proof.
  cbn. destruct (UpdateEntry.entryDate i) as [s|]; [|reflexivity]. cbn.
  destruct (String.eqb s ""); reflexivity.
Qed.

Lemma updateEntry_date_origin Date_of_string i context rt w r' :
  In r' (entries (db (snd (updateEntry Date_of_string i context rt w)))) ->
  date_origin Date_of_string
    {| req_call := CallUpdateEntry i; req_context := context; req_runtime := rt |} w r'.
Proof.
  unfold updateEntry, bind. by_caller constr:(context) rt w;
    [|(cbn; apply date_origin_kept)]. cbn.
  destruct (Sql.where_ _ _); [(cbn; apply date_origin_kept)|]. cbn.
  unfold Sql.update_where. intros Hin.
  apply in_map_iff in Hin as (r & <- & Hr).
  destruct (Sql.holds _); [|now apply date_origin_kept].
  pose proof (patched_entryDate Date_of_string i (clock rt) r) as Hdate.
  destruct (UpdateEntry.entryDate i) as [s|] eqn:Hs.
  - destruct (String.eqb_spec s "") as [->|Hne].
    + left. exists r. repeat split; assumption.
    + right. left. exists s. repeat split; assumption.
  - left. exists r. repeat split; assumption.
Qed.

Lemma deleteEntry_date_origin Date_of_string i context rt w r' :
  In r' (entries (db (snd (deleteEntry i context rt w)))) ->
  date_origin Date_of_string
    {| req_call := CallDeleteEntry i; req_context := context; req_runtime := rt |} w r'.
Proof.
  unfold deleteEntry, bind. by_caller constr:(context) rt w;
    [|(cbn; apply date_origin_kept)]. cbn.
  destruct (map _ _); [(cbn; apply date_origin_kept)|]. cbn.
  unfold Sql.delete_where. intros Hin. apply filter_In in Hin as [Hin _].
  now apply date_origin_kept.
Qed.

(** C9. [entryDate] cannot be set to null.  The schemas of [updateEntry] and
    [createEntry] reject a payload whose [entryDate] is [null], while a
    payload with [null] in every other optional key passes.  The patch of
    [updateEntry] names [entryDate] only when the input gives a non-empty
    string, and then with the date built from it; with the key left out the
    column is not named.  After any request, the [entryDate] of every stored
    entry is a date: the one the entry had before, the one built from the
    string given, or the time of the call for a creation.  The other optional
    columns do take null: sending null in all of them to Alice's entry
    empties them and leaves its date alone. *)
Theorem entry_date_is_never_null (Date_of_string : string -> Date) :
  (forall p, UpdateEntry.raw_entryDate p = Null -> UpdateEntry.schema p = None) /\
  (forall p, CreateEntry.raw_entryDate p = Null -> CreateEntry.schema p = None) /\
  (forall id, id <> "" ->
     UpdateEntry.schema (all_null id Omitted) = Some (all_null_input id)) /\
  (forall input now d,
     MoodJournalEntries.set_entryDate (entry_updateData Date_of_string input now)
     = Some d ->
     exists s, UpdateEntry.entryDate input = Some s /\ s <> ""
               /\ d = Date_of_string s) /\
  (forall input now,
     UpdateEntry.entryDate input = None ->
     MoodJournalEntries.set_entryDate (entry_updateData Date_of_string input now)
     = None) /\
  (forall q w r',
     In r' (entries (db (after Date_of_string q w))) ->
     date_origin Date_of_string q w r') /\
  entries (db (snd (updateEntry Date_of_string (all_null_input "e-alice")
                      (Sample.signed_in Sample.alice) Sample.first_call
                      Sample.diary)))
  = [ {| MoodJournalEntries.id := "e-alice";
         MoodJournalEntries.userId := "alice";
         MoodJournalEntries.entryDate := 3 * 86400000;
         MoodJournalEntries.moodScore := None;
         MoodJournalEntries.moodLabel := None;
         MoodJournalEntries.tags := None;
         MoodJournalEntries.title := None;
         MoodJournalEntries.body := None;
         MoodJournalEntries.promptId := None;
         MoodJournalEntries.createdAt := 500;
         MoodJournalEntries.updatedAt := 1000 |};
      Sample.entry "e-bob" "bob" 4 ].
Proof.
  repeat split.
  - intros p Hnull. unfold UpdateEntry.schema. rewrite Hnull.
    destruct (Zod.required _ _); reflexivity.
  - intros p Hnull. unfold CreateEntry.schema. rewrite Hnull. reflexivity.
  - intros id Hid. unfold UpdateEntry.schema, all_null. cbn.
    destruct id as [|c id]; [congruence | reflexivity].
  - intros input now d. cbn.
    destruct (UpdateEntry.entryDate input) as [s|]; [|discriminate]. cbn.
    destruct (String.eqb_spec s "") as [->|Hne]; cbn; [discriminate|].
    intros [= <-]. exists s. repeat split. exact Hne.
  - intros input now Hnone. cbn. now rewrite Hnone.
  - intros [c context rt] w r'. unfold after. cbn [req_call req_context req_runtime].
    destruct (prompt_actions_keep_entries context rt w) as (Hcp & Hup & Hlp).
    destruct c as [i|i|i|i|i|i|i|i].
    + apply createEntry_date_origin.
    + apply updateEntry_date_origin.
    + apply deleteEntry_date_origin.
    + unfold getEntry, bind. by_caller constr:(context) rt w;
        [|(cbn; apply date_origin_kept)]. cbn.
      destruct (Sql.where_ _ _); (cbn; apply date_origin_kept).
    + rewrite listEntries_db. apply date_origin_kept.
    + rewrite Hcp. (cbn; apply date_origin_kept).
    + rewrite Hup. (cbn; apply date_origin_kept).
    + rewrite Hlp. (cbn; apply date_origin_kept).
Qed.

Lemma entry_date_is_never_null_witness :
  UpdateEntry.raw_entryDate (all_null "e-alice" Null) = Null /\
  UpdateEntry.schema (all_null "e-alice" Null) = None /\
  UpdateEntry.schema (all_null "e-alice" Omitted) = Some (all_null_input "e-alice").
Proof.
  split; [reflexivity|]. split.
  - exact (proj1 (entry_date_is_never_null Calendar.utc_midnight)
             (all_null "e-alice" Null) eq_refl).
  - apply (proj1 (proj2 (proj2 (entry_date_is_never_null Calendar.utc_midnight)))).
    discriminate.
Defined.

(** * Further properties of the handlers *)

(** ** Statements sent to the store *)

Ltac journal_is l :=
  exists l; cbn; rewrite <- ?app_assoc, ?app_nil_r;
  repeat match goal with |- _ /\ _ => split end;
  try reflexivity; try (cbn; lia); try discriminate; try (intros _; reflexivity).

(** X1. A request never drops or rewrites what the journal held: it appends
    at most two statements.  [getEntry], [listEntries] and [listPrompts] send
    nothing but selects, and a request that has sent nothing but selects has
    left both tables as they were. *)
Theorem request_sends_at_most_two_statements
  (Date_of_string : string -> Date) (q : Request) (w : World) :
  exists l : list Statement,
    journal (after Date_of_string q w) = (journal w ++ l)%list /\
    (List.length l <= 2)%nat /\
    (forallb is_select l = true -> db (after Date_of_string q w) = db w) /\
    match req_call q with
    | CallGetEntry _ | CallListEntries _ | CallListPrompts _ =>
        forallb is_select l = true
    | _ => True
    end.
Proof.
  destruct q as [c context rt]. unfold after. cbn [req_call req_context req_runtime].
  destruct c as [i|i|i|i|i|i|i|i].
  - unfold createEntry, bind. by_caller constr:(context) rt w; [|journal_is (@nil Statement)].
    cbn. unfold Store.insert_entry.
    match goal with |- context [existsb ?f ?l] => destruct (existsb f l) end;
      journal_is [Insert TEntries].
  - unfold updateEntry, bind. by_caller constr:(context) rt w; [|journal_is (@nil Statement)].
    cbn. destruct (Sql.where_ _ _);
      [journal_is [Select TEntries] | journal_is [Select TEntries; Update TEntries]].
  - unfold deleteEntry, bind. by_caller constr:(context) rt w; [|journal_is (@nil Statement)].
    cbn. destruct (map _ _);
      [journal_is [Select TEntries] | journal_is [Select TEntries; Delete TEntries]].
  - unfold getEntry, bind. by_caller constr:(context) rt w; [|journal_is (@nil Statement)].
    cbn. destruct (Sql.where_ _ _); journal_is [Select TEntries].
  - destruct (listEntries_world i context rt w) as (Hdb & l & Hj & Hl).
    exists l. split; [exact Hj|].
    destruct Hl as [-> | ->]; repeat split; cbn; auto.
  - unfold createPrompt, bind. by_caller constr:(context) rt w; [|journal_is (@nil Statement)].
    cbn. unfold Store.insert_prompt.
    match goal with |- context [existsb ?f ?l] => destruct (existsb f l) end;
      journal_is [Insert TPrompts].
  - unfold updatePrompt, bind. by_caller constr:(context) rt w; [|journal_is (@nil Statement)].
    cbn. destruct (Sql.where_ _ _);
      [journal_is [Select TPrompts] | journal_is [Select TPrompts; Update TPrompts]].
  - unfold listPrompts, bind. by_caller constr:(context) rt w; [|journal_is (@nil Statement)].
    journal_is [Select TPrompts].
Qed.

(** ** Rows of other users *)

Lemma filter_map_fixed {A} (f : A -> bool) (g : A -> A) (l : list A) :
  (forall x, f x = true -> g x = x) ->
  (forall x, f (g x) = f x) ->
  filter f (map g l) = filter f l.
Proof.
  intros Hfix Hsame. induction l as [|x l IH]; cbn; [reflexivity|].
  rewrite Hsame. destruct (f x) eqn:Hx; [|exact IH].
  now rewrite (Hfix x Hx), IH.
Qed.

Lemma filter_filter_weaker {A} (f g : A -> bool) (l : list A) :
  (forall x, f x = true -> g x = true) ->
  filter f (filter g l) = filter f l.
Proof.
  intros Himp. induction l as [|x l IH]; cbn; [reflexivity|].
  destruct (g x) eqn:Hg; cbn.
  - now rewrite IH.
  - destruct (f x) eqn:Hf; [|exact IH]. rewrite (Himp x Hf) in Hg. discriminate.
Qed.

Lemma delete_where_own_entry id u rows :
  Sql.delete_where (own_entry id u) rows
  = filter (fun r => negb (entry_target id u r)) rows.
Proof.
  unfold Sql.delete_where. apply filter_ext. intros r. now rewrite holds_own_entry.
Qed.

Lemma stranger_is_no_entry_target id u r :
  negb (entry_owned_by u r) = true -> entry_target id u r = false.
Proof.
  unfold entry_target. destruct (entry_owned_by u r); [discriminate|].
  intros _. apply andb_false_r.
Qed.

Lemma stranger_is_no_prompt_target id u r :
  negb (prompt_owned_by u r) = true -> prompt_target id u r = false.
Proof.
  unfold prompt_target. destruct (prompt_owned_by u r); [discriminate|].
  intros _. apply andb_false_r.
Qed.

Lemma createEntry_others Date_of_string i context u rt w :
  caller context = Some u ->
  entries_of_others u (snd (createEntry Date_of_string i context rt w))
  = entries_of_others u w.
Proof.
  intros Hu. unfold createEntry, bind.
  rewrite (requireUser_signed_in context u rt w Hu). cbn.
  unfold Store.insert_entry.
  match goal with |- context [existsb ?f ?l] => destruct (existsb f l) end;
    [reflexivity|].
  unfold entries_of_others. cbn. rewrite filter_app. cbn.
  unfold entry_owned_by at 2. cbn. rewrite String.eqb_refl. cbn. apply app_nil_r.
Qed.

Lemma updateEntry_others Date_of_string i context u rt w :
  caller context = Some u ->
  entries_of_others u (snd (updateEntry Date_of_string i context rt w))
  = entries_of_others u w.
Proof.
  intros Hu. unfold updateEntry, bind.
  rewrite (requireUser_signed_in context u rt w Hu). cbn.
  destruct (Sql.where_ _ _); [reflexivity|]. cbn.
  unfold entries_of_others. cbn. rewrite update_where_own_entry.
  apply filter_map_fixed.
  - intros r Hr. now rewrite (stranger_is_no_entry_target _ _ _ Hr).
  - intros r. destruct (entry_target _ u r); reflexivity.
Qed.

Lemma deleteEntry_others i context u rt w :
  caller context = Some u ->
  entries_of_others u (snd (deleteEntry i context rt w)) = entries_of_others u w.
Proof.
  intros Hu. unfold deleteEntry, bind.
  rewrite (requireUser_signed_in context u rt w Hu). cbn.
  destruct (map _ _); [reflexivity|]. cbn.
  unfold entries_of_others. cbn. rewrite delete_where_own_entry.
  apply filter_filter_weaker.
  intros r Hr. now rewrite (stranger_is_no_entry_target _ _ _ Hr).
Qed.

Lemma createPrompt_others i context u rt w :
  caller context = Some u ->
  prompts_of_others u (snd (createPrompt i context rt w)) = prompts_of_others u w.
Proof.
  intros Hu. unfold createPrompt, bind.
  rewrite (requireUser_signed_in context u rt w Hu). cbn.
  unfold Store.insert_prompt.
  match goal with |- context [existsb ?f ?l] => destruct (existsb f l) end;
    [reflexivity|].
  unfold prompts_of_others. cbn. rewrite filter_app. cbn.
  unfold prompt_owned_by at 2. cbn. rewrite String.eqb_refl. cbn. apply app_nil_r.
Qed.

Lemma updatePrompt_others i context u rt w :
  caller context = Some u ->
  prompts_of_others u (snd (updatePrompt i context rt w)) = prompts_of_others u w.
Proof.
  intros Hu. unfold updatePrompt, bind.
  rewrite (requireUser_signed_in context u rt w Hu). cbn.
  destruct (Sql.where_ _ _); [reflexivity|]. cbn.
  unfold prompts_of_others. cbn. rewrite update_where_own_prompt.
  apply filter_map_fixed.
  - intros r Hr. now rewrite (stranger_is_no_prompt_target _ _ _ Hr).
  - intros r. destruct (prompt_target _ u r); reflexivity.
Qed.

Lemma after_rows_of_others Date_of_string q w u :
  caller (req_context q) = Some u ->
  entries_of_others u (after Date_of_string q w) = entries_of_others u w /\
  prompts_of_others u (after Date_of_string q w) = prompts_of_others u w.
Proof.
  destruct q as [c context rt]. cbn [req_context]. intros Hu.
  destruct (entry_actions_keep_prompts Date_of_string context rt w)
    as (Hce & Hue & Hde & Hge & Hle).
  destruct (prompt_actions_keep_entries context rt w) as (Hcp & Hup & Hlp).
  unfold after. cbn [req_call req_context req_runtime].
  destruct c as [i|i|i|i|i|i|i|i]; split;
    try (unfold prompts_of_others;
         first [rewrite Hce | rewrite Hue | rewrite Hde | rewrite Hge | rewrite Hle];
         reflexivity);
    try (unfold entries_of_others;
         first [rewrite Hcp | rewrite Hup | rewrite Hlp]; reflexivity).
  - now apply createEntry_others.
  - now apply updateEntry_others.
  - now apply deleteEntry_others.
  - unfold getEntry, bind. rewrite (requireUser_signed_in context u rt w Hu). cbn.
    destruct (Sql.where_ _ _); reflexivity.
  - unfold entries_of_others. now rewrite listEntries_db.
  - now apply createPrompt_others.
  - now apply updatePrompt_others.
  - unfold listPrompts, bind. rewrite (requireUser_signed_in context u rt w Hu).
    reflexivity.
Qed.

(** X2. No request touches a row that is not the caller's.  Whatever the
    action and its input, the entries of all other users, and the prompts
    that are global or belong to other users, are after the request the very
    rows they were before, in the same order. *)
Theorem request_leaves_rows_of_others
  (Date_of_string : string -> Date) (q : Request) (w : World) (u : User) :
  caller (req_context q) = Some u ->
  entries_of_others u (after Date_of_string q w) = entries_of_others u w /\
  prompts_of_others u (after Date_of_string q w) = prompts_of_others u w.
Proof.
  apply after_rows_of_others.
Qed.

Lemma request_leaves_rows_of_others_witness :
  caller (Sample.signed_in Sample.alice) = Some Sample.alice /\
  entries_of_others Sample.alice
    (after Calendar.utc_midnight
       {| req_call := CallDeleteEntry {| DeleteEntry.id := "e-bob" |};
          req_context := Sample.signed_in Sample.alice;
          req_runtime := Sample.first_call |} Sample.diary)
  = entries_of_others Sample.alice Sample.diary.
Proof.
  split; [reflexivity|].
  exact (proj1 (request_leaves_rows_of_others Calendar.utc_midnight
                  {| req_call := CallDeleteEntry {| DeleteEntry.id := "e-bob" |};
                     req_context := Sample.signed_in Sample.alice;
                     req_runtime := Sample.first_call |}
                  Sample.diary Sample.alice eq_refl)).
Defined.

(** ** Deleting an entry *)

Lemma getEntry_missing i context u rt w :
  caller context = Some u ->
  filter (entry_target (GetEntry.id i) u) (entries (db w)) = [] ->
  getEntry i context rt w = (Throw EntryNotFound, sent (Select TEntries) w).
Proof.
  intros Hu Hnone. unfold getEntry, bind.
  rewrite (requireUser_signed_in context u rt w Hu). cbn.
  rewrite where_own_entry, Hnone. reflexivity.
Qed.

Lemma deleteEntry_missing i context u rt w :
  caller context = Some u ->
  filter (entry_target (DeleteEntry.id i) u) (entries (db w)) = [] ->
  deleteEntry i context rt w = (Throw EntryNotFound, sent (Select TEntries) w).
Proof.
  intros Hu Hnone. unfold deleteEntry, bind.
  rewrite (requireUser_signed_in context u rt w Hu). cbn.
  rewrite where_own_entry, Hnone. reflexivity.
Qed.

Lemma filter_complement {A} (f : A -> bool) (l : list A) :
  filter f (filter (fun x => negb (f x)) l) = [].
Proof.
  apply filter_nothing. intros x Hx. apply filter_In in Hx as [_ Hx].
  now destruct (f x).
Qed.

(** X3. [deleteEntry] on an entry of the caller returns success and removes
    the rows with that id and owner, and nothing else: the other entries keep
    their order and the prompt table is untouched.  Right after, the same
    caller gets [NOT_FOUND] from [getEntry] and from a second [deleteEntry]
    on that id. *)
Theorem delete_entry_removes_the_record
  (context : ActionAPIContext) (u : User) (rt : Runtime) (w : World)
  (input : DeleteEntry.input) :
  caller context = Some u ->
  (exists r, In r (entries (db w))
             /\ entry_target (DeleteEntry.id input) u r = true) ->
  exists w',
    deleteEntry input context rt w = (Return (succeed tt), w') /\
    entries (db w')
    = filter (fun r => negb (entry_target (DeleteEntry.id input) u r))
        (entries (db w)) /\
    prompts (db w') = prompts (db w) /\
    (forall rt',
        getEntry {| GetEntry.id := DeleteEntry.id input |} context rt' w'
        = (Throw EntryNotFound, sent (Select TEntries) w')) /\
    (forall rt',
        deleteEntry input context rt' w'
        = (Throw EntryNotFound, sent (Select TEntries) w')).
Proof.
  intros Hu (r & Hin & Hr).
  eexists. split.
  - unfold deleteEntry, bind. rewrite (requireUser_signed_in context u rt w Hu).
    cbn. rewrite where_own_entry.
    destruct (filter_hit _ _ _ Hin Hr) as (y & rest & ->). cbn.
    rewrite delete_where_own_entry. reflexivity.
  - cbn. repeat split; intros rt'.
    + apply getEntry_missing with (u := u); [exact Hu|]. cbn.
      apply filter_complement.
    + apply deleteEntry_missing with (u := u); [exact Hu|]. cbn.
      apply filter_complement.
Qed.

Lemma delete_entry_removes_the_record_witness :
  caller (Sample.signed_in Sample.alice) = Some Sample.alice /\
  exists w',
    deleteEntry {| DeleteEntry.id := "e-alice" |} (Sample.signed_in Sample.alice)
      Sample.first_call Sample.diary = (Return (succeed tt), w') /\
    entries (db w') = [Sample.entry "e-bob" "bob" 4].
Proof.
  split; [reflexivity|].
  destruct (delete_entry_removes_the_record (Sample.signed_in Sample.alice)
              Sample.alice Sample.first_call Sample.diary
              {| DeleteEntry.id := "e-alice" |} eq_refl)
    as (w' & Hrun & Hrows & _).
  - exists (Sample.entry "e-alice" "alice" 3). split; [left; reflexivity | reflexivity].
  - exists w'. split; [exact Hrun | exact Hrows].
Defined.

(** ** Reading back an update *)

Lemma filter_map_target {A} (t : A -> bool) (h : A -> A) (l : list A) :
  (forall x, t (h x) = t x) ->
  filter t (map (fun x => if t x then h x else x) l) = map h (filter t l).
Proof.
  intros Hsame. induction l as [|x l IH]; cbn; [reflexivity|].
  destruct (t x) eqn:Hx.
  - rewrite Hsame, Hx. cbn. now rewrite IH.
  - rewrite Hx. exact IH.
Qed.

Lemma getEntry_returns i context u rt w r w' :
  caller context = Some u ->
  getEntry i context rt w = (Return (succeed r), w') ->
  exists rest, filter (entry_target (GetEntry.id i) u) (entries (db w)) = r :: rest.
Proof.
  intros Hu. unfold getEntry, bind.
  rewrite (requireUser_signed_in context u rt w Hu). cbn.
  rewrite where_own_entry.
  destruct (filter _ _) as [|y rest]; [discriminate|].
  cbn. intros [= -> _]. now exists rest.
Qed.

(** X4. An update can be read back.  When [getEntry] returns the record [r]
    for an id, an [updateEntry] of that id by the same caller, with an input
    the schema has let through, succeeds, and [getEntry] then returns the
    sparse patch of [r]: the cells the payload names are overwritten, the
    others are those of [r], and [updatedAt] is the time of the update. *)
Theorem update_entry_then_get_entry
  (Date_of_string : string -> Date) (context : ActionAPIContext) (u : User)
  (rt0 rt : Runtime) (w w0 : World)
  (payload : UpdateEntry.payload) (input : UpdateEntry.input) (r : Entry) :
  caller context = Some u ->
  UpdateEntry.schema payload = Some input ->
  getEntry {| GetEntry.id := UpdateEntry.id input |} context rt0 w
  = (Return (succeed r), w0) ->
  exists w1,
    updateEntry Date_of_string input context rt w
    = (Return (succeed (UpdateEntry.id input)), w1) /\
    forall rt',
      getEntry {| GetEntry.id := UpdateEntry.id input |} context rt' w1
      = (Return (succeed (patched_entry Date_of_string input (clock rt) r)),
         sent (Select TEntries) w1).
Proof.
  intros Hu Hvalid Hget.
  destruct (getEntry_returns _ _ _ _ _ _ _ Hu Hget) as (rest & Hsel). cbn in Hsel.
  assert (Hfound : exists r0, In r0 (entries (db w))
                     /\ entry_target (UpdateEntry.id input) u r0 = true).
  { exists r. apply filter_In. rewrite Hsel. now left. }
  eexists. split; [exact (updateEntry_found _ _ _ _ _ _ Hu Hfound)|].
  intros rt'. unfold getEntry, bind.
  rewrite (requireUser_signed_in context u rt' _ Hu). cbn.
  rewrite where_own_entry, filter_map_target; [|intros x; apply entry_target_set].
  rewrite Hsel. cbn.
  rewrite entry_updateData_is_patch; [reflexivity|].
  exact (updateEntry_schema_date _ _ Hvalid).
Qed.

Lemma update_entry_then_get_entry_witness :
  caller (Sample.signed_in Sample.alice) = Some Sample.alice /\
  UpdateEntry.schema Sample.score_five_payload = Some Sample.score_five /\
  exists w1,
    updateEntry Calendar.utc_midnight Sample.score_five
      (Sample.signed_in Sample.alice) Sample.second_call Sample.diary
    = (Return (succeed "e-alice"), w1) /\
    forall rt',
      getEntry {| GetEntry.id := "e-alice" |} (Sample.signed_in Sample.alice) rt' w1
      = (Return (succeed
           (patched_entry Calendar.utc_midnight Sample.score_five 2000
              (Sample.entry "e-alice" "alice" 3))),
         sent (Select TEntries) w1).
Proof.
  split; [reflexivity|]. split; [reflexivity|].
  exact (update_entry_then_get_entry Calendar.utc_midnight
           (Sample.signed_in Sample.alice) Sample.alice
           Sample.first_call Sample.second_call Sample.diary
           (sent (Select TEntries) Sample.diary)
           Sample.score_five_payload Sample.score_five
           (Sample.entry "e-alice" "alice" 3) eq_refl eq_refl eq_refl).
Defined.

(** ** Primary keys *)

Lemma NoDup_map_filter {A B} (k : A -> B) (f : A -> bool) (l : list A) :
  NoDup (map k l) -> NoDup (map k (filter f l)).
Proof.
  induction l as [|x l IH]; cbn; intros Hnd; [constructor|].
  inversion Hnd as [|? ? Hnotin Hrest]; subst.
  destruct (f x); cbn; [|now apply IH].
  constructor; [|now apply IH].
  intros Hin. apply Hnotin.
  apply in_map_iff in Hin as (y & Hy & Hyin).
  apply filter_In in Hyin as [Hyin _].
  apply in_map_iff. now exists y.
Qed.

Lemma NoDup_map_snoc {A} (k : A -> string) (l : list A) (x : A) :
  NoDup (map k l) ->
  existsb (fun y => String.eqb (k y) (k x)) l = false ->
  NoDup (map k (l ++ [x])).
Proof.
  intros Hnd Hunused. rewrite map_app. cbn.
  apply NoDup_app; [exact Hnd | repeat constructor; intros [] |].
  intros key Hin [<-|[]].
  apply in_map_iff in Hin as (y & Hy & Hyin).
  pose proof (existsb_nothing_inv _ _ y Hunused Hyin) as Hne. cbn in Hne.
  rewrite Hy, String.eqb_refl in Hne. discriminate.
Qed.

Lemma map_update_same_key {A B} (k : A -> B) (t : A -> bool) (h : A -> A) (l : list A) :
  (forall x, k (h x) = k x) ->
  map k (map (fun x => if t x then h x else x) l) = map k l.
Proof.
  intros Hk. rewrite map_map. apply map_ext. intros x.
  destruct (t x); [apply Hk | reflexivity].
Qed.

Lemma after_entry_ids Date_of_string q w :
  NoDup (entry_ids w) -> NoDup (entry_ids (after Date_of_string q w)).
Proof.
  destruct q as [c context rt]. intros Hnd.
  destruct (prompt_actions_keep_entries context rt w) as (Hcp & Hup & Hlp).
  unfold after, entry_ids in *. cbn [req_call req_context req_runtime].
  destruct c as [i|i|i|i|i|i|i|i].
  - unfold createEntry, bind. by_caller constr:(context) rt w; [|exact Hnd]. cbn.
    unfold Store.insert_entry.
    match goal with |- context [existsb ?f ?l] => destruct (existsb f l) eqn:Hused end;
      [exact Hnd|].
    cbn. now apply NoDup_map_snoc.
  - unfold updateEntry, bind. by_caller constr:(context) rt w; [|exact Hnd]. cbn.
    destruct (Sql.where_ _ _); [exact Hnd|]. cbn.
    unfold Sql.update_where. now rewrite map_update_same_key.
  - unfold deleteEntry, bind. by_caller constr:(context) rt w; [|exact Hnd]. cbn.
    destruct (map _ (Sql.where_ _ _)); [exact Hnd|]. cbn.
    unfold Sql.delete_where. now apply NoDup_map_filter.
  - unfold getEntry, bind. by_caller constr:(context) rt w; [|exact Hnd]. cbn.
    destruct (Sql.where_ _ _); exact Hnd.
  - now rewrite listEntries_db.
  - now rewrite Hcp.
  - now rewrite Hup.
  - now rewrite Hlp.
Qed.

Lemma after_prompt_ids Date_of_string q w :
  NoDup (prompt_ids w) -> NoDup (prompt_ids (after Date_of_string q w)).
Proof.
  destruct q as [c context rt]. intros Hnd.
  destruct (entry_actions_keep_prompts Date_of_string context rt w)
    as (Hce & Hue & Hde & Hge & Hle).
  unfold after, prompt_ids in *. cbn [req_call req_context req_runtime].
  destruct c as [i|i|i|i|i|i|i|i].
  - now rewrite Hce.
  - now rewrite Hue.
  - now rewrite Hde.
  - now rewrite Hge.
  - now rewrite Hle.
  - unfold createPrompt, bind. by_caller constr:(context) rt w; [|exact Hnd]. cbn.
    unfold Store.insert_prompt.
    match goal with |- context [existsb ?f ?l] => destruct (existsb f l) eqn:Hused end;
      [exact Hnd|].
    cbn. now apply NoDup_map_snoc.
  - unfold updatePrompt, bind. by_caller constr:(context) rt w; [|exact Hnd]. cbn.
    destruct (Sql.where_ _ _); [exact Hnd|]. cbn.
    unfold Sql.update_where. now rewrite map_update_same_key.
  - unfold listPrompts, bind. by_caller constr:(context) rt w; exact Hnd.
Qed.

(** X5. The ids stay keys.  If no two entries and no two prompts share an id,
    this is still so after any sequence of requests: a creation whose
    generated id is taken adds no row, and updates and deletions keep the
    ids of the rows they leave. *)
Theorem requests_keep_ids_unique
  (Date_of_string : string -> Date) (qs : list Request) (w : World) :
  unique_ids w -> unique_ids (after_all Date_of_string qs w).
Proof.
  unfold after_all. revert w.
  induction qs as [|q qs IH]; intros w Hw; cbn; [exact Hw|].
  apply IH. destruct Hw as [He Hp]. split.
  - now apply after_entry_ids.
  - now apply after_prompt_ids.
Qed.

Lemma requests_keep_ids_unique_witness :
  unique_ids Sample.diary /\
  unique_ids
    (after_all Calendar.utc_midnight
       [ {| req_call := CallCreateEntry Sample.new_entry;
            req_context := Sample.signed_in Sample.alice;
            req_runtime := Sample.first_call |};
         {| req_call := CallCreateEntry Sample.new_entry;
            req_context := Sample.signed_in Sample.bob;
            req_runtime := Sample.first_call |} ]
       Sample.diary).
Proof.
  assert (H : unique_ids Sample.diary).
  { split; cbn; repeat constructor; cbn; intuition discriminate. }
  split; [exact H|].
  exact (requests_keep_ids_unique Calendar.utc_midnight _ _ H).
Defined.

(** ** What a row keeps for good *)

Lemma same_entry_identity_kept w r' :
  In r' (entries (db w)) -> same_entry_identity w r'.
Proof.
  intros Hin. exists r'. repeat split. exact Hin.
Qed.

(** X6. No request changes the id, the owner or the creation time of a
    stored entry.  An entry found in the table after a request either keeps
    these three from a row stored before, or it was created by this very
    request: then its id is the generated one, its owner is the caller, and
    [createdAt] and [updatedAt] are both the time of the call. *)
Theorem entry_identity_is_kept
  (Date_of_string : string -> Date) (q : Request) (w : World) (r' : Entry) :
  In r' (entries (db (after Date_of_string q w))) ->
  same_entry_identity w r' \/
  exists u i,
    caller (req_context q) = Some u /\
    req_call q = CallCreateEntry i /\
    MoodJournalEntries.id r' = uuid (req_runtime q) /\
    MoodJournalEntries.userId r' = user_id u /\
    MoodJournalEntries.createdAt r' = clock (req_runtime q) /\
    MoodJournalEntries.updatedAt r' = clock (req_runtime q).
Proof.
  destruct q as [c context rt].
  destruct (prompt_actions_keep_entries context rt w) as (Hcp & Hup & Hlp).
  unfold after. cbn [req_call req_context req_runtime].
  destruct c as [i|i|i|i|i|i|i|i].
  - unfold createEntry, bind. by_caller constr:(context) rt w;
      [|intros Hin; left; now apply same_entry_identity_kept]. cbn.
    unfold Store.insert_entry.
    match goal with |- context [existsb ?f ?l] => destruct (existsb f l) end;
      [intros Hin; left; now apply same_entry_identity_kept|].
    cbn. intros Hin. apply in_app_or in Hin as [Hold|[<-|[]]];
      [left; now apply same_entry_identity_kept|].
    right. exists u, i. repeat split.
  - unfold updateEntry, bind. by_caller constr:(context) rt w;
      [|intros Hin; left; now apply same_entry_identity_kept]. cbn.
    destruct (Sql.where_ _ _);
      [intros Hin; left; now apply same_entry_identity_kept|]. cbn.
    unfold Sql.update_where. intros Hin.
    apply in_map_iff in Hin as (r & <- & Hr). left.
    destruct (Sql.holds _); [|now apply same_entry_identity_kept].
    exists r. repeat split. exact Hr.
  - unfold deleteEntry, bind. by_caller constr:(context) rt w;
      [|intros Hin; left; now apply same_entry_identity_kept]. cbn.
    destruct (map _ (Sql.where_ _ _));
      [intros Hin; left; now apply same_entry_identity_kept|]. cbn.
    unfold Sql.delete_where. intros Hin. apply filter_In in Hin as [Hin _].
    left. now apply same_entry_identity_kept.
  - unfold getEntry, bind. by_caller constr:(context) rt w;
      [|intros Hin; left; now apply same_entry_identity_kept]. cbn.
    destruct (Sql.where_ _ _); intros Hin; left; now apply same_entry_identity_kept.
  - rewrite listEntries_db. intros Hin. left. now apply same_entry_identity_kept.
  - rewrite Hcp. intros Hin. left. now apply same_entry_identity_kept.
  - rewrite Hup. intros Hin. left. now apply same_entry_identity_kept.
  - rewrite Hlp. intros Hin. left. now apply same_entry_identity_kept.
Qed.

Lemma entry_identity_is_kept_witness :
  In (patched_entry Calendar.utc_midnight Sample.score_five 1000
        (Sample.entry "e-alice" "alice" 3))
     (entries (db (after Calendar.utc_midnight
                     {| req_call := CallUpdateEntry Sample.score_five;
                        req_context := Sample.signed_in Sample.alice;
                        req_runtime := Sample.first_call |} Sample.diary))) /\
  same_entry_identity Sample.diary
    (patched_entry Calendar.utc_midnight Sample.score_five 1000
       (Sample.entry "e-alice" "alice" 3)).
Proof.
  assert (Hin : In (patched_entry Calendar.utc_midnight Sample.score_five 1000
                      (Sample.entry "e-alice" "alice" 3))
                   (entries (db (after Calendar.utc_midnight
                     {| req_call := CallUpdateEntry Sample.score_five;
                        req_context := Sample.signed_in Sample.alice;
                        req_runtime := Sample.first_call |} Sample.diary)))).
  { left. reflexivity. }
  split; [exact Hin|].
  destruct (entry_identity_is_kept Calendar.utc_midnight _ _ _ Hin)
    as [Hsame | (u & i & _ & Hcall & _)]; [exact Hsame | discriminate Hcall].
Defined.

Lemma prompt_identity_update p (t : Prompt -> bool) rows :
  map prompt_identity (map (fun r => if t r then MoodPrompts.set p r else r) rows)
  = map prompt_identity rows.
Proof.
  rewrite map_map. apply map_ext. intros r. destruct (t r); reflexivity.
Qed.

Lemma after_prompt_identity Date_of_string q w :
  map prompt_identity (prompts (db (after Date_of_string q w)))
  = map prompt_identity (prompts (db w)) \/
  exists u,
    caller (req_context q) = Some u /\
    map prompt_identity (prompts (db (after Date_of_string q w)))
    = (map prompt_identity (prompts (db w))
         ++ [(uuid (req_runtime q), Some (user_id u), false,
              clock (req_runtime q))])%list.
Proof.
  destruct q as [c context rt].
  destruct (entry_actions_keep_prompts Date_of_string context rt w)
    as (Hce & Hue & Hde & Hge & Hle).
  unfold after. cbn [req_call req_context req_runtime].
  destruct c as [i|i|i|i|i|i|i|i].
  - left. now rewrite Hce.
  - left. now rewrite Hue.
  - left. now rewrite Hde.
  - left. now rewrite Hge.
  - left. now rewrite Hle.
  - unfold createPrompt, bind. by_caller constr:(context) rt w; [|now left]. cbn.
    unfold Store.insert_prompt.
    match goal with |- context [existsb ?f ?l] => destruct (existsb f l) end;
      [now left|].
    right. exists u. split; [reflexivity|]. cbn. now rewrite map_app.
  - left. unfold updatePrompt, bind. by_caller constr:(context) rt w;
      [|reflexivity]. cbn.
    destruct (Sql.where_ _ _); [reflexivity|]. cbn.
    unfold Sql.update_where. apply prompt_identity_update.
  - left. unfold listPrompts, bind. by_caller constr:(context) rt w; reflexivity.
Qed.

(** X7. No request changes the id, the owner, the [isSystem] flag or the
    creation time of a stored prompt, and none removes a prompt: a request
    either keeps these four for every row, in order, or adds one prompt of
    the caller with [isSystem = false], created at the time of the call.
    Hence a table without system prompts stays without them, whatever is
    requested. *)
Theorem prompt_identity_is_kept (Date_of_string : string -> Date) :
  (forall q w,
      map prompt_identity (prompts (db (after Date_of_string q w)))
      = map prompt_identity (prompts (db w)) \/
      exists u,
        caller (req_context q) = Some u /\
        map prompt_identity (prompts (db (after Date_of_string q w)))
        = (map prompt_identity (prompts (db w))
             ++ [(uuid (req_runtime q), Some (user_id u), false,
                  clock (req_runtime q))])%list) /\
  (forall qs w,
      (forall p, In p (prompts (db w)) -> MoodPrompts.isSystem p = false) ->
      forall p, In p (prompts (db (after_all Date_of_string qs w))) ->
                MoodPrompts.isSystem p = false).
Proof.
  split; [apply after_prompt_identity|].
  intros qs. unfold after_all.
  induction qs as [|q qs IH]; intros w Hw; cbn; [exact Hw|].
  apply IH. intros p Hp.
  assert (Hid : In (prompt_identity p)
                  (map prompt_identity (prompts (db (after Date_of_string q w)))))
    by (apply in_map; exact Hp).
  destruct (after_prompt_identity Date_of_string q w) as [E | (u & _ & E)];
    rewrite E in Hid.
  - apply in_map_iff in Hid as (p0 & [= _ _ Hsys _] & Hp0).
    rewrite <- Hsys. now apply Hw.
  - apply in_app_or in Hid as [Hid | [[= _ _ Hsys _] | []]].
    + apply in_map_iff in Hid as (p0 & [= _ _ Hsys _] & Hp0).
      rewrite <- Hsys. now apply Hw.
    + now rewrite <- Hsys.
Qed.

Lemma prompt_identity_is_kept_witness :
  (forall p, In p (prompts (db Sample.diary)) -> MoodPrompts.isSystem p = false) /\
  forall p,
    In p (prompts (db (after_all Calendar.utc_midnight
            [ {| req_call := CallCreatePrompt Sample.new_prompt;
                 req_context := Sample.signed_in Sample.bob;
                 req_runtime := Sample.second_call |} ] Sample.diary))) ->
    MoodPrompts.isSystem p = false.
Proof.
  assert (H : forall p, In p (prompts (db Sample.diary)) ->
                        MoodPrompts.isSystem p = false).
  { intros p [<-|[<-|[]]]; reflexivity. }
  split; [exact H|].
  exact (proj2 (prompt_identity_is_kept Calendar.utc_midnight) _ _ H).
Defined.

(** ** Bounds of the stored cells *)

Lemma required_ok {A} (c : Zod.check A) f a :
  Zod.required c f = Some a -> c a = true.
Proof.
  unfold Zod.required. destruct f as [| |x]; try discriminate.
  destruct (c x) eqn:Hc; [|discriminate]. now intros [= <-].
Qed.

Lemma optional_ok {A} (c : Zod.check A) f o :
  Zod.optional c f = Some o -> null_or c o.
Proof.
  unfold Zod.optional. destruct f as [| |x]; try discriminate.
  - now intros [= <-].
  - destruct (c x) eqn:Hc; [|discriminate]. now intros [= <-].
Qed.

Lemma nullable_optional_ok {A} (c : Zod.check A) f f' :
  Zod.nullable_optional c f = Some f' -> null_or c (nullish f').
Proof.
  unfold Zod.nullable_optional. destruct f as [| |x].
  - now intros [= <-].
  - now intros [= <-].
  - destruct (c x) eqn:Hc; [|discriminate]. now intros [= <-].
Qed.

(** A cell written by the sparse patch is the old one or the given one. *)
Lemma patched_cell_ok {A} (c : Zod.check A) (f : Field A) (old : option A) :
  null_or c (nullish f) -> null_or c old ->
  null_or c (MoodJournalEntries.assign
               (if hasOwn f then Some (nullish f) else None) old).
Proof.
  destruct f; cbn; auto.
Qed.

Lemma patched_category_ok (c : Zod.check string) (f : Field string) old :
  null_or c (nullish f) -> null_or c old ->
  null_or c (MoodPrompts.assign (if hasOwn f then Some (nullish f) else None) old).
Proof.
  destruct f; cbn; auto.
Qed.

Lemma patched_text_ok (c : Zod.check string) (o : option string) old :
  null_or c o -> c old = true ->
  c (MoodPrompts.assign (if truthy o then o else None) old) = true.
Proof.
  destruct o as [s|]; cbn; [|auto].
  destruct (negb (String.eqb s "")); cbn; auto.
Qed.

Ltac schema_facts :=
  repeat match goal with
         | H : Zod.nullable_optional _ _ = Some _ |- _ =>
             apply nullable_optional_ok in H
         | H : Zod.optional _ _ = Some _ |- _ => apply optional_ok in H
         | H : Zod.required _ _ = Some _ |- _ => apply required_ok in H
         end.

Lemma createEntry_within_bounds Date_of_string payload i context rt w :
  CreateEntry.schema payload = Some i ->
  (forall r, In r (entries (db w)) -> entry_within_bounds r) ->
  forall r, In r (entries (db (snd (createEntry Date_of_string i context rt w)))) ->
            entry_within_bounds r.
Proof.
  intros Hvalid Hw. unfold createEntry, bind.
  by_caller constr:(context) rt w; [|exact Hw]. cbn.
  unfold Store.insert_entry.
  match goal with |- context [existsb ?f ?l] => destruct (existsb f l) end;
    [exact Hw|].
  cbn. intros r Hin. apply in_app_or in Hin as [Hold|[<-|[]]]; [now apply Hw|].
  unfold CreateEntry.schema in Hvalid. invert_schema Hvalid. schema_facts.
  unfold entry_within_bounds. cbn. repeat split; assumption.
Qed.

Lemma updateEntry_within_bounds Date_of_string payload i context rt w :
  UpdateEntry.schema payload = Some i ->
  (forall r, In r (entries (db w)) -> entry_within_bounds r) ->
  forall r, In r (entries (db (snd (updateEntry Date_of_string i context rt w)))) ->
            entry_within_bounds r.
Proof.
  intros Hvalid Hw. unfold updateEntry, bind.
  by_caller constr:(context) rt w; [|exact Hw]. cbn.
  destruct (Sql.where_ _ _); [exact Hw|]. cbn.
  unfold Sql.update_where. intros r' Hin.
  apply in_map_iff in Hin as (r & <- & Hr).
  destruct (Sql.holds _); [|now apply Hw].
  destruct (Hw r Hr) as (H1 & H2 & H3 & H4 & H5 & H6).
  unfold UpdateEntry.schema in Hvalid. invert_schema Hvalid. schema_facts.
  unfold entry_within_bounds. cbn.
  repeat split; apply patched_cell_ok; assumption.
Qed.

Lemma deleteEntry_within_bounds i context rt w :
  (forall r, In r (entries (db w)) -> entry_within_bounds r) ->
  forall r, In r (entries (db (snd (deleteEntry i context rt w)))) ->
            entry_within_bounds r.
Proof.
  intros Hw. unfold deleteEntry, bind.
  by_caller constr:(context) rt w; [|exact Hw]. cbn.
  destruct (map _ (Sql.where_ _ _)); [exact Hw|]. cbn.
  unfold Sql.delete_where. intros r Hin. apply filter_In in Hin as [Hin _].
  now apply Hw.
Qed.

Lemma createPrompt_within_bounds payload i context rt w :
  CreatePrompt.schema payload = Some i ->
  (forall p, In p (prompts (db w)) -> prompt_within_bounds p) ->
  forall p, In p (prompts (db (snd (createPrompt i context rt w)))) ->
            prompt_within_bounds p.
Proof.
  intros Hvalid Hw. unfold createPrompt, bind.
  by_caller constr:(context) rt w; [|exact Hw]. cbn.
  unfold Store.insert_prompt.
  match goal with |- context [existsb ?f ?l] => destruct (existsb f l) end;
    [exact Hw|].
  cbn. intros p Hin. apply in_app_or in Hin as [Hold|[<-|[]]]; [now apply Hw|].
  unfold CreatePrompt.schema in Hvalid. invert_schema Hvalid. schema_facts.
  unfold prompt_within_bounds. cbn. repeat split; assumption.
Qed.

Lemma updatePrompt_within_bounds payload i context rt w :
  UpdatePrompt.schema payload = Some i ->
  (forall p, In p (prompts (db w)) -> prompt_within_bounds p) ->
  forall p, In p (prompts (db (snd (updatePrompt i context rt w)))) ->
            prompt_within_bounds p.
Proof.
  intros Hvalid Hw. unfold updatePrompt, bind.
  by_caller constr:(context) rt w; [|exact Hw]. cbn.
  destruct (Sql.where_ _ _); [exact Hw|]. cbn.
  unfold Sql.update_where. intros row' Hin.
  apply in_map_iff in Hin as (row & <- & Hrow).
  destruct (Sql.holds _); [|now apply Hw].
  destruct (Hw row Hrow) as (H1 & H2 & H3).
  unfold UpdatePrompt.schema in Hvalid. invert_schema Hvalid. schema_facts.
  unfold prompt_within_bounds.
  split; [|split];
    [apply patched_text_ok | apply patched_text_ok | apply patched_category_ok];
    assumption.
Qed.

Lemma after_within_bounds Date_of_string q w :
  schema_passed (req_call q) ->
  store_within_bounds w -> store_within_bounds (after Date_of_string q w).
Proof.
  destruct q as [c context rt]. cbn [req_call]. intros Hvalid [He Hp].
  destruct (entry_actions_keep_prompts Date_of_string context rt w)
    as (Hce & Hue & Hde & Hge & Hle).
  destruct (prompt_actions_keep_entries context rt w) as (Hcp & Hup & Hlp).
  unfold store_within_bounds, after. cbn [req_call req_context req_runtime].
  destruct c as [i|i|i|i|i|i|i|i]; cbn in Hvalid; destruct Hvalid as [payload Hvalid].
  - rewrite Hce. split; [|exact Hp]. now apply createEntry_within_bounds with payload.
  - rewrite Hue. split; [|exact Hp]. now apply updateEntry_within_bounds with payload.
  - rewrite Hde. split; [|exact Hp]. now apply deleteEntry_within_bounds.
  - rewrite Hge. split; [|exact Hp].
    unfold getEntry, bind. by_caller constr:(context) rt w; [|exact He]. cbn.
    destruct (Sql.where_ _ _); exact He.
  - rewrite Hle. split; [|exact Hp]. now rewrite listEntries_db.
  - rewrite Hcp. split; [exact He|]. now apply createPrompt_within_bounds with payload.
  - rewrite Hup. split; [exact He|]. now apply updatePrompt_within_bounds with payload.
  - rewrite Hlp. split; [exact He|].
    unfold listPrompts, bind. by_caller constr:(context) rt w; exact Hp.
Qed.

(** X8. The schemas bound what is stored.  If every stored [moodScore] is
    null or between 1 and 10, every stored text is null or within the length
    its schema allows ([moodLabel] 1 to 50, [tags] 1 to 255, entry [title]
    1 to 120, [body] and [promptId] not empty, prompt [title] 1 to 120,
    [promptText] not empty, [category] 1 to 80), then this is still so after
    any sequence of requests whose inputs have passed their schemas. *)
Theorem valid_requests_keep_bounds
  (Date_of_string : string -> Date) (qs : list Request) (w : World) :
  Forall (fun q => schema_passed (req_call q)) qs ->
  store_within_bounds w ->
  store_within_bounds (after_all Date_of_string qs w).
Proof.
  unfold after_all. intros Hqs. revert w.
  induction Hqs as [|q qs Hq Hqs IH]; intros w Hw; cbn; [exact Hw|].
  apply IH. now apply after_within_bounds.
Qed.

Lemma valid_requests_keep_bounds_witness :
  Forall (fun q => schema_passed (req_call q))
    [ {| req_call := CallUpdateEntry Sample.score_five;
         req_context := Sample.signed_in Sample.alice;
         req_runtime := Sample.first_call |} ] /\
  store_within_bounds Sample.diary /\
  store_within_bounds
    (after_all Calendar.utc_midnight
       [ {| req_call := CallUpdateEntry Sample.score_five;
            req_context := Sample.signed_in Sample.alice;
            req_runtime := Sample.first_call |} ] Sample.diary).
Proof.
  assert (Hq : Forall (fun q => schema_passed (req_call q))
                 [ {| req_call := CallUpdateEntry Sample.score_five;
                      req_context := Sample.signed_in Sample.alice;
                      req_runtime := Sample.first_call |} ]).
  { repeat constructor. exists Sample.score_five_payload. reflexivity. }
  assert (Hw : store_within_bounds Sample.diary).
  { split.
    - intros r [<-|[<-|[]]]; repeat split.
    - intros p [<-|[<-|[]]]; repeat split. }
  split; [exact Hq|]. split; [exact Hw|].
  exact (valid_requests_keep_bounds Calendar.utc_midnight _ _ Hq Hw).
Defined.

(** ** More on paging *)

Lemma listEntries_reads input context u rt w :
  caller context = Some u ->
  fst (listEntries input context rt w)
  = match Sql.limit_offset (ListEntries.pageSize input)
            (Js.mul (Js.sub (ListEntries.page input) 1) (ListEntries.pageSize input))
            (Sql.orderBy_desc MoodJournalEntries.entryDate
               (filter (entry_owned_by u) (entries (db w)))) with
    | Some found =>
        Return (succeed {| items := found;
                           total := entry_count u w;
                           page := ListEntries.page input;
                           pageSize := ListEntries.pageSize input |})
    | None => Throw (DatatypeMismatch TEntries)
    end.
Proof.
  intros Hu. rewrite (listEntries_run _ _ _ _ _ Hu). cbn [fst].
  now rewrite !where_entry_of.
Qed.

(** The page a call returns when limit and offset are safe integers. *)
Lemma listEntries_safe input context u rt w :
  caller context = Some u ->
  1 <= ListEntries.page input ->
  1 <= ListEntries.pageSize input ->
  ListEntries.page input * ListEntries.pageSize input <= Js.MAX_SAFE_INTEGER ->
  fst (listEntries input context rt w)
  = Return (succeed
      {| items :=
           firstn (Z.to_nat (ListEntries.pageSize input))
             (skipn (Z.to_nat ((ListEntries.page input - 1)
                               * ListEntries.pageSize input))
                (Sql.orderBy_desc MoodJournalEntries.entryDate
                   (filter (entry_owned_by u) (entries (db w)))));
         total := entry_count u w;
         page := ListEntries.page input;
         pageSize := ListEntries.pageSize input |}).
Proof.
  intros Hu Hpage Hsize Hsafe. rewrite (listEntries_reads _ _ _ _ _ Hu).
  unfold Js.MAX_SAFE_INTEGER in Hsafe.
  change (2 ^ 53) with 9007199254740992 in Hsafe.
  assert (Hoff : 0 <= (ListEntries.page input - 1) * ListEntries.pageSize input)
    by (apply Z.mul_nonneg_nonneg; lia).
  assert (Hle : (ListEntries.page input - 1) * ListEntries.pageSize input
                <= ListEntries.page input * ListEntries.pageSize input) by nia.
  assert (Hps : ListEntries.pageSize input
                <= ListEntries.page input * ListEntries.pageSize input) by nia.
  rewrite offset_safe;
    [|assumption|assumption
     |unfold Js.MAX_SAFE_INTEGER; change (2 ^ 53) with 9007199254740992; lia].
  now rewrite limit_offset_taken by lia.
Qed.

Lemma In_firstn_inv {A} (n : nat) (l : list A) (x : A) :
  In x (firstn n l) -> In x l.
Proof.
  intros H. rewrite <- (firstn_skipn n l). apply in_or_app. now left.
Qed.

Lemma In_skipn_inv {A} (n : nat) (l : list A) (x : A) :
  In x (skipn n l) -> In x l.
Proof.
  intros H. rewrite <- (firstn_skipn n l). apply in_or_app. now right.
Qed.

Lemma firstn_then_next {A} (a b : nat) (l : list A) :
  (firstn a l ++ firstn b (skipn a l))%list = firstn (a + b) l.
Proof.
  revert l. induction a as [|a IH]; intros l; [reflexivity|].
  destruct l as [|x l]; cbn.
  - now rewrite firstn_nil.
  - now rewrite IH.
Qed.

(** X9. The size of a page.  For a signed-in caller with [n] entries,
    [listEntries] with [page >= 1], [pageSize >= 1] and [page * pageSize] a
    safe integer, at most 2^53 - 1, returns a page of
    [min pageSize (n - (page - 1) * pageSize)] items, and of none when the
    page starts beyond the last entry; every item is a stored entry of the
    caller. *)
Theorem page_size_of_list_entries
  (context : ActionAPIContext) (u : User) (rt : Runtime) (w : World)
  (input : ListEntries.input) :
  caller context = Some u ->
  1 <= ListEntries.page input ->
  1 <= ListEntries.pageSize input ->
  ListEntries.page input * ListEntries.pageSize input <= Js.MAX_SAFE_INTEGER ->
  exists (result : EntryPage) (w' : World),
    listEntries input context rt w = (Return (succeed result), w') /\
    Z.of_nat (List.length (items result))
    = Z.max 0 (Z.min (ListEntries.pageSize input)
                 (entry_count u w
                  - (ListEntries.page input - 1) * ListEntries.pageSize input)) /\
    (forall r, In r (items result) ->
               In r (entries (db w)) /\ MoodJournalEntries.userId r = user_id u).
Proof.
  intros Hu Hpage Hsize Hsafe.
  pose proof (listEntries_safe input context u rt w Hu Hpage Hsize Hsafe) as Hrun.
  destruct (listEntries input context rt w) as [outcome w'] eqn:Hcall.
  cbn [fst] in Hrun. subst outcome.
  eexists. exists w'. split; [reflexivity|].
  cbn [items].
  assert (Hoff : 0 <= (ListEntries.page input - 1) * ListEntries.pageSize input)
    by (apply Z.mul_nonneg_nonneg; lia).
  split.
  - rewrite length_firstn, length_skipn.
    rewrite (Permutation_length (orderBy_desc_perm MoodJournalEntries.entryDate _)).
    unfold entry_count.
    set (off := (ListEntries.page input - 1) * ListEntries.pageSize input) in *.
    clearbody off. unfold Entry in *. lia.
  - intros r Hin. apply In_firstn_inv, In_skipn_inv in Hin.
    apply (Permutation_in _ (orderBy_desc_perm MoodJournalEntries.entryDate _)) in Hin.
    apply filter_In in Hin as [Hin Howned]. split; [exact Hin|].
    now apply String.eqb_eq.
Qed.

Lemma page_size_of_list_entries_witness :
  caller (Sample.signed_in Sample.alice) = Some Sample.alice /\
  3 * 10 <= Js.MAX_SAFE_INTEGER /\
  exists (result : EntryPage) (w' : World),
    listEntries {| ListEntries.page := 3; ListEntries.pageSize := 10 |}
      (Sample.signed_in Sample.alice) Sample.first_call Sample.month
    = (Return (succeed result), w') /\
    Z.of_nat (List.length (items result))
    = Z.max 0 (Z.min 10 (entry_count Sample.alice Sample.month - (3 - 1) * 10)).
Proof.
  assert (Hsafe : 3 * 10 <= Js.MAX_SAFE_INTEGER) by (vm_compute; discriminate).
  split; [reflexivity|]. split; [exact Hsafe|].
  destruct (page_size_of_list_entries (Sample.signed_in Sample.alice) Sample.alice
              Sample.first_call Sample.month
              {| ListEntries.page := 3; ListEntries.pageSize := 10 |} eq_refl)
    as (result & w' & Hrun & Hlen & _); [cbn; lia | cbn; lia | exact Hsafe |].
  exists result, w'. split; [exact Hrun | exact Hlen].
Defined.

(** Without a bound the pages do not add up: over Alice's 25 entries, page 1
    of size 2^62 is returned, while page 1 of twice that size is refused by
    the store. *)
Lemma pages_beyond_the_store_do_not_add_up :
  (exists result,
      fst (listEntries {| ListEntries.page := 1;
                          ListEntries.pageSize := 4611686018427387904 |}
             (Sample.signed_in Sample.alice) Sample.first_call Sample.month)
      = Return (succeed result)) /\
  fst (listEntries {| ListEntries.page := 1;
                      ListEntries.pageSize := 2 * 4611686018427387904 |}
         (Sample.signed_in Sample.alice) Sample.first_call Sample.month)
  = Throw (DatatypeMismatch TEntries).
Proof.
  split; [eexists|]; vm_compute; reflexivity.
Qed.

(** X10. Consecutive pages neither skip nor repeat an entry.  Over the same
    store, and with [2 * k * s] a safe integer, at most 2^53 - 1, pages
    [2k - 1] and [2k] of size [s] and page [k] of size [2s] are all returned,
    and the items of the first two, one after the other, are the items of
    the third. *)
Theorem list_entries_consecutive_pages
  (context : ActionAPIContext) (u : User) (rt1 rt2 rt : Runtime) (w : World)
  (k s : Z) :
  caller context = Some u ->
  1 <= k -> 1 <= s ->
  2 * k * s <= Js.MAX_SAFE_INTEGER ->
  exists a b c : EntryPage,
    fst (listEntries {| ListEntries.page := 2 * k - 1; ListEntries.pageSize := s |}
           context rt1 w) = Return (succeed a) /\
    fst (listEntries {| ListEntries.page := 2 * k; ListEntries.pageSize := s |}
           context rt2 w) = Return (succeed b) /\
    fst (listEntries {| ListEntries.page := k; ListEntries.pageSize := 2 * s |}
           context rt w) = Return (succeed c) /\
    (items a ++ items b)%list = items c.
Proof.
  intros Hu Hk Hs Hsafe.
  assert (Hsafe' : 2 * k * s <= 9007199254740991) by exact Hsafe.
  eexists. eexists. eexists.
  split; [|split; [|split]].
  - apply (listEntries_safe _ _ u); cbn [ListEntries.page ListEntries.pageSize];
      [exact Hu | lia | lia |].
    unfold Js.MAX_SAFE_INTEGER. change (2 ^ 53) with 9007199254740992. nia.
  - apply (listEntries_safe _ _ u); cbn [ListEntries.page ListEntries.pageSize];
      [exact Hu | lia | lia |].
    unfold Js.MAX_SAFE_INTEGER. change (2 ^ 53) with 9007199254740992. lia.
  - apply (listEntries_safe _ _ u); cbn [ListEntries.page ListEntries.pageSize];
      [exact Hu | lia | lia |].
    unfold Js.MAX_SAFE_INTEGER. change (2 ^ 53) with 9007199254740992. lia.
  - cbn [items ListEntries.page ListEntries.pageSize].
    assert (Hoff : 0 <= (k - 1) * (2 * s)) by (apply Z.mul_nonneg_nonneg; lia).
    replace ((2 * k - 1 - 1) * s) with ((k - 1) * (2 * s)) by ring.
    replace ((2 * k - 1) * s) with (s + (k - 1) * (2 * s)) by ring.
    rewrite (Z2Nat.inj_add s _) by lia.
    rewrite <- skipn_skipn, firstn_then_next.
    f_equal. lia.
Qed.

Lemma list_entries_consecutive_pages_witness :
  caller (Sample.signed_in Sample.alice) = Some Sample.alice /\
  2 * 2 * 5 <= Js.MAX_SAFE_INTEGER /\
  exists a b c : EntryPage,
    fst (listEntries {| ListEntries.page := 3; ListEntries.pageSize := 5 |}
           (Sample.signed_in Sample.alice) Sample.first_call Sample.month)
    = Return (succeed a) /\
    fst (listEntries {| ListEntries.page := 4; ListEntries.pageSize := 5 |}
           (Sample.signed_in Sample.alice) Sample.first_call Sample.month)
    = Return (succeed b) /\
    fst (listEntries {| ListEntries.page := 2; ListEntries.pageSize := 10 |}
           (Sample.signed_in Sample.alice) Sample.first_call Sample.month)
    = Return (succeed c) /\
    (items a ++ items b)%list = items c.
Proof.
  assert (Hsafe : 2 * 2 * 5 <= Js.MAX_SAFE_INTEGER) by (vm_compute; discriminate).
  split; [reflexivity|]. split; [exact Hsafe|].
  apply (list_entries_consecutive_pages (Sample.signed_in Sample.alice) Sample.alice
           Sample.first_call Sample.first_call Sample.first_call Sample.month 2 5
           eq_refl); [lia | lia | exact Hsafe].
Defined.

(** X11. A created entry is counted.  Take a successful [createEntry] and
    any input of [listEntries].  If the store refuses its limit or offset,
    [listEntries] throws for the creator before and after the creation
    alike; otherwise it returns both times, and the [total] it reports after
    the creation is the one before plus one.  What it returns or throws for
    a user with another id is the same before and after. *)
Theorem create_entry_is_counted
  (Date_of_string : string -> Date) (context : ActionAPIContext) (u : User)
  (rt : Runtime) (w : World) (input : CreateEntry.input) :
  caller context = Some u ->
  fresh_entry_id (uuid rt) w ->
  let w1 := snd (createEntry Date_of_string input context rt w) in
  (forall page rt1 rt0,
      (fst (listEntries page context rt0 w) = Throw (DatatypeMismatch TEntries) /\
       fst (listEntries page context rt1 w1) = Throw (DatatypeMismatch TEntries))
      \/
      (exists before after_,
          fst (listEntries page context rt0 w) = Return (succeed before) /\
          fst (listEntries page context rt1 w1) = Return (succeed after_) /\
          total after_ = total before + 1)) /\
  (forall other v page rt1 rt0,
      caller other = Some v -> user_id v <> user_id u ->
      fst (listEntries page other rt1 w1) = fst (listEntries page other rt0 w)).
Proof.
  intros Hu Hfresh w1.
  assert (Hrows : exists e, MoodJournalEntries.userId e = user_id u
                            /\ entries (db w1) = (entries (db w) ++ [e])%list).
  { subst w1. unfold createEntry, bind.
    rewrite (requireUser_signed_in context u rt w Hu). cbn.
    unfold Store.insert_entry. cbn.
    rewrite (fresh_entry_id_unused _ _ Hfresh). cbn.
    eexists. split; [|reflexivity]. reflexivity. }
  destruct Hrows as (e & He & Hrows). split.
  - intros page rt1 rt0.
    rewrite !(listEntries_reads _ _ _ _ _ Hu).
    assert (Hcount : entry_count u w1 = entry_count u w + 1).
    { unfold entry_count. rewrite Hrows, filter_app, length_app. cbn.
      unfold entry_owned_by at 2. rewrite He, String.eqb_refl. cbn. lia. }
    unfold Sql.limit_offset, Sql.offset, Sql.limit.
    destruct (Sql.integer (Js.mul _ _)); [|left; now split].
    destruct (Sql.integer (ListEntries.pageSize page)); [|left; now split].
    right. eexists. eexists. split; [reflexivity|]. split; [reflexivity|].
    exact Hcount.
  - intros other v page rt1 rt0 Hv Hne.
    rewrite !(listEntries_reads _ _ _ _ _ Hv).
    assert (Hsame : filter (entry_owned_by v) (entries (db w1))
                    = filter (entry_owned_by v) (entries (db w))).
    { rewrite Hrows, filter_app. cbn. unfold entry_owned_by at 2. rewrite He.
      rewrite (proj2 (String.eqb_neq _ _)) by congruence. apply app_nil_r. }
    unfold entry_count. now rewrite Hsame.
Qed.

Lemma create_entry_is_counted_witness :
  caller (Sample.signed_in Sample.alice) = Some Sample.alice /\
  fresh_entry_id (uuid Sample.first_call) Sample.month /\
  ((fst (listEntries {| ListEntries.page := 1; ListEntries.pageSize := 20 |}
           (Sample.signed_in Sample.alice) Sample.second_call Sample.month)
    = Throw (DatatypeMismatch TEntries) /\
    fst (listEntries {| ListEntries.page := 1; ListEntries.pageSize := 20 |}
           (Sample.signed_in Sample.alice) Sample.second_call
           (snd (createEntry Calendar.utc_midnight Sample.new_entry
                   (Sample.signed_in Sample.alice) Sample.first_call Sample.month)))
    = Throw (DatatypeMismatch TEntries))
   \/
   (exists before after_,
       fst (listEntries {| ListEntries.page := 1; ListEntries.pageSize := 20 |}
              (Sample.signed_in Sample.alice) Sample.second_call Sample.month)
       = Return (succeed before) /\
       fst (listEntries {| ListEntries.page := 1; ListEntries.pageSize := 20 |}
              (Sample.signed_in Sample.alice) Sample.second_call
              (snd (createEntry Calendar.utc_midnight Sample.new_entry
                      (Sample.signed_in Sample.alice) Sample.first_call
                      Sample.month)))
       = Return (succeed after_) /\
       total after_ = total before + 1)).
Proof.
  assert (Hfresh : fresh_entry_id (uuid Sample.first_call) Sample.month).
  { intros r Hr. cbn in Hr.
    repeat (destruct Hr as [<-|Hr]; [cbn; discriminate|]). destruct Hr. }
  split; [reflexivity|]. split; [exact Hfresh|].
  exact (proj1 (create_entry_is_counted Calendar.utc_midnight
                  (Sample.signed_in Sample.alice) Sample.alice
                  Sample.first_call Sample.month Sample.new_entry eq_refl Hfresh)
           _ _ _).
Defined.

(** ** Listing prompts *)

Lemma listed_prompts_signed_in input context u rt w :
  caller context = Some u ->
  listed_prompts input context rt w
  = Sql.orderBy_desc MoodPrompts.createdAt
      (filter (own_listing u (ListPrompts.includeInactive input)) (prompts (db w))).
Proof.
  intros Hu. unfold listed_prompts.
  destruct (listPrompts_lists_own_prompts input context u rt w Hu)
    as (listed & -> & ->).
  reflexivity.
Qed.

Lemma In_listed_prompts input context u rt w p :
  caller context = Some u ->
  In p (listed_prompts input context rt w) <->
  In p (prompts (db w)) /\ own_listing u (ListPrompts.includeInactive input) p = true.
Proof.
  intros Hu. rewrite (listed_prompts_signed_in _ _ _ _ _ Hu).
  rewrite <- filter_In. split; apply Permutation_in.
  - apply orderBy_desc_perm.
  - symmetry. apply orderBy_desc_perm.
Qed.

(** X12. What [listPrompts] returns to a signed-in caller: the stored prompts
    whose [userId] is the caller's, without the inactive ones unless
    [includeInactive] is true, each as often as it is stored, the latest
    created first; [total] is the number of items returned, and the store is
    only read.  No prompt of another user and no prompt without owner is
    among the items. *)
Theorem list_prompts_lists_own_prompts
  (context : ActionAPIContext) (u : User) (rt : Runtime) (w : World)
  (input : ListPrompts.input) :
  caller context = Some u ->
  exists (listed : list Prompt) (w' : World),
    listPrompts input context rt w
    = (Return (succeed {| prompt_items := listed;
                          prompt_total := Z.of_nat (List.length listed) |}), w') /\
    only_read TPrompts w w' /\
    Permutation listed
      (filter (own_listing u (ListPrompts.includeInactive input)) (prompts (db w))) /\
    StronglySorted (descending MoodPrompts.createdAt) listed /\
    (forall p, In p listed -> MoodPrompts.userId p = Some (user_id u)).
Proof.
  intros Hu.
  destruct (listPrompts_lists_own_prompts input context u rt w Hu)
    as (listed & Hrun & Hlisted).
  exists listed, (sent (Select TPrompts) w).
  split; [exact Hrun|]. split; [split; reflexivity|].
  subst listed. split; [apply orderBy_desc_perm|].
  split; [apply orderBy_desc_sorted|].
  intros p Hin.
  apply (Permutation_in _ (orderBy_desc_perm MoodPrompts.createdAt _)) in Hin.
  apply filter_In in Hin as [_ Hown].
  unfold own_listing, prompt_owned_by in Hown.
  destruct (MoodPrompts.userId p) as [owner|]; [|discriminate].
  apply andb_prop in Hown as [Hown _]. apply String.eqb_eq in Hown. now subst.
Qed.

Lemma list_prompts_lists_own_prompts_witness :
  caller (Sample.signed_in Sample.bob) = Some Sample.bob /\
  exists (listed : list Prompt) (w' : World),
    listPrompts {| ListPrompts.includeInactive := None |}
      (Sample.signed_in Sample.bob) Sample.first_call Sample.diary
    = (Return (succeed {| prompt_items := listed;
                          prompt_total := Z.of_nat (List.length listed) |}), w') /\
    forall p, In p listed -> MoodPrompts.userId p = Some "bob".
Proof.
  split; [reflexivity|].
  destruct (list_prompts_lists_own_prompts (Sample.signed_in Sample.bob) Sample.bob
              Sample.first_call Sample.diary
              {| ListPrompts.includeInactive := None |} eq_refl)
    as (listed & w' & Hrun & _ & _ & _ & Hown).
  exists listed, w'. split; [exact Hrun | exact Hown].
Defined.

(** X13. A created prompt is listed for its creator only.  After a
    successful [createPrompt], the new prompt is among the items
    [listPrompts] returns to the same caller when [includeInactive] is true,
    and with [includeInactive] unset or false exactly when it was not
    created with [isActive = false].  It is never among the items returned
    to a user with another id. *)
Theorem created_prompt_is_listed
  (context : ActionAPIContext) (u : User) (rt : Runtime) (w : World)
  (input : CreatePrompt.input) :
  caller context = Some u ->
  fresh_prompt_id (uuid rt) w ->
  exists (prompt : Prompt) (w1 : World),
    createPrompt input context rt w = (Return (succeed prompt), w1) /\
    (forall rt',
        In prompt (listed_prompts {| ListPrompts.includeInactive := Some true |}
                     context rt' w1)) /\
    (forall inc rt',
        truthy_bool inc = false ->
        (In prompt (listed_prompts {| ListPrompts.includeInactive := inc |}
                      context rt' w1)
         <-> CreatePrompt.isActive input <> Some false)) /\
    (forall other v inc rt',
        caller other = Some v -> user_id v <> user_id u ->
        ~ In prompt (listed_prompts {| ListPrompts.includeInactive := inc |}
                       other rt' w1)).
Proof.
  intros Hu Hfresh.
  eexists. eexists. split.
  - unfold createPrompt, bind.
    rewrite (requireUser_signed_in context u rt w Hu). cbn.
    unfold Store.insert_prompt. cbn.
    rewrite (fresh_prompt_id_unused _ _ Hfresh). reflexivity.
  - repeat split.
    + intros rt'. apply (In_listed_prompts _ _ u); [exact Hu|]. cbn. split.
      * apply in_or_app. right. now left.
      * unfold own_listing, prompt_owned_by. cbn. now rewrite String.eqb_refl.
    + intros Hin. apply (In_listed_prompts _ _ u) in Hin as [_ Hown]; [|exact Hu].
      unfold own_listing, prompt_owned_by in Hown. cbn in Hown.
      rewrite String.eqb_refl, H in Hown. cbn in Hown.
      destruct (CreatePrompt.isActive input) as [[|]|]; cbn in Hown;
        congruence.
    + intros Hactive. apply (In_listed_prompts _ _ u); [exact Hu|]. cbn. split.
      * apply in_or_app. right. now left.
      * unfold own_listing, prompt_owned_by. cbn.
        rewrite String.eqb_refl, H. cbn.
        destruct (CreatePrompt.isActive input) as [[|]|]; cbn; congruence.
    + intros other v inc rt' Hv Hne Hin.
      apply (In_listed_prompts _ _ v) in Hin as [_ Hown]; [|exact Hv].
      unfold own_listing, prompt_owned_by in Hown. cbn in Hown.
      rewrite (proj2 (String.eqb_neq _ _)) in Hown by congruence. discriminate.
Qed.

Lemma created_prompt_is_listed_witness :
  caller (Sample.signed_in Sample.alice) = Some Sample.alice /\
  fresh_prompt_id (uuid Sample.first_call) Sample.diary /\
  exists (prompt : Prompt) (w1 : World),
    createPrompt Sample.new_prompt (Sample.signed_in Sample.alice)
      Sample.first_call Sample.diary = (Return (succeed prompt), w1) /\
    In prompt (listed_prompts {| ListPrompts.includeInactive := Some true |}
                 (Sample.signed_in Sample.alice) Sample.second_call w1).
Proof.
  assert (Hfresh : fresh_prompt_id (uuid Sample.first_call) Sample.diary).
  { intros r [<-|[<-|[]]]; simpl; discriminate. }
  split; [reflexivity|]. split; [exact Hfresh|].
  destruct (created_prompt_is_listed (Sample.signed_in Sample.alice) Sample.alice
              Sample.first_call Sample.diary Sample.new_prompt eq_refl Hfresh)
    as (prompt & w1 & Hrun & Hall & _).
  exists prompt, w1. split; [exact Hrun | apply Hall].
Defined.

(** X14. Switching a prompt off.  After [updatePrompt] with
    [isActive = false] on a prompt of the caller, [listPrompts] with
    [includeInactive] unset returns no prompt with that id to the caller,
    while with [includeInactive = true] it still returns one, now
    inactive. *)
Theorem deactivated_prompt_is_hidden
  (context : ActionAPIContext) (u : User) (rt : Runtime) (w : World) (id : string) :
  caller context = Some u ->
  (exists r, In r (prompts (db w)) /\ prompt_target id u r = true) ->
  exists w1,
    updatePrompt (deactivate id) context rt w = (Return (succeed id), w1) /\
    (forall rt' p,
        In p (listed_prompts {| ListPrompts.includeInactive := None |}
                context rt' w1) ->
        MoodPrompts.id p <> id) /\
    (forall rt',
        exists p,
          In p (listed_prompts {| ListPrompts.includeInactive := Some true |}
                  context rt' w1)
          /\ MoodPrompts.id p = id /\ MoodPrompts.isActive p = false).
Proof.
  intros Hu Hfound.
  eexists. split; [exact (updatePrompt_found (deactivate id) _ _ _ _ Hu Hfound)|].
  cbn [UpdatePrompt.id deactivate]. split.
  - intros rt' p Hin.
    apply (In_listed_prompts _ _ u) in Hin as [Hin Hown]; [|exact Hu].
    cbn in Hin. apply in_map_iff in Hin as (r & <- & Hr).
    unfold own_listing in Hown. cbn in Hown.
    destruct (prompt_target id u r) eqn:Ht.
    + cbn in Hown. rewrite andb_false_r in Hown. discriminate.
    + intros Hid. apply andb_prop in Hown as [Howned _].
      unfold prompt_target in Ht. rewrite Howned, andb_true_r in Ht.
      apply String.eqb_neq in Ht. contradiction.
  - intros rt'. destruct Hfound as (r & Hr & Ht).
    exists (MoodPrompts.set (prompt_updateData (deactivate id) (clock rt)) r).
    split; [|split].
    + apply (In_listed_prompts _ _ u); [exact Hu|]. cbn. split.
      * apply in_map_iff. exists r. rewrite Ht. split; [reflexivity | exact Hr].
      * unfold own_listing. cbn. apply andb_prop in Ht as [_ Howned].
        unfold prompt_owned_by in *. cbn. now rewrite Howned.
    + cbn. apply andb_prop in Ht as [Hid _]. now apply String.eqb_eq.
    + reflexivity.
Qed.

Lemma deactivated_prompt_is_hidden_witness :
  caller (Sample.signed_in Sample.alice) = Some Sample.alice /\
  exists w1,
    updatePrompt (deactivate "p-alice") (Sample.signed_in Sample.alice)
      Sample.first_call Sample.diary = (Return (succeed "p-alice"), w1) /\
    forall rt' p,
      In p (listed_prompts {| ListPrompts.includeInactive := None |}
              (Sample.signed_in Sample.alice) rt' w1) ->
      MoodPrompts.id p <> "p-alice".
Proof.
  split; [reflexivity|].
  destruct (deactivated_prompt_is_hidden (Sample.signed_in Sample.alice) Sample.alice
              Sample.first_call Sample.diary "p-alice" eq_refl)
    as (w1 & Hrun & Hhidden & _).
  - exists (Sample.prompt "p-alice" (Some "alice") true).
    split; [left; reflexivity | reflexivity].
  - exists w1. split; [exact Hrun | exact Hhidden].
Defined.

(** ** The record of a new entry *)

(** X15. For a signed-in caller, an input the schema has let through and a
    generated id that is not yet in the table, [createEntry] stores the
    record it returns as the last row of the entry table and leaves the
    prompts alone.  The record has the generated id, the caller as owner, the
    date built from [entryDate] when that key is given and the time of the
    call otherwise, null in every optional cell whose key is left out or
    null and the given value in the others, and [createdAt] and [updatedAt]
    at the time of the call.  When the generated id is already the key of an
    entry, the call throws and both tables stay as they were. *)
Theorem create_entry_record
  (Date_of_string : string -> Date) (context : ActionAPIContext) (u : User)
  (rt : Runtime) (w : World)
  (payload : CreateEntry.payload) (input : CreateEntry.input) :
  caller context = Some u ->
  CreateEntry.schema payload = Some input ->
  (fresh_entry_id (uuid rt) w ->
   exists (entry : Entry) (w' : World),
     createEntry Date_of_string input context rt w = (Return (succeed entry), w') /\
     entries (db w') = (entries (db w) ++ [entry])%list /\
     prompts (db w') = prompts (db w) /\
     MoodJournalEntries.id entry = uuid rt /\
     MoodJournalEntries.userId entry = user_id u /\
     MoodJournalEntries.entryDate entry
       = match CreateEntry.entryDate input with
         | Some s => Date_of_string s
         | None => clock rt
         end /\
     MoodJournalEntries.moodScore entry
       = overwrite (CreateEntry.moodScore input) None /\
     MoodJournalEntries.moodLabel entry
       = overwrite (CreateEntry.moodLabel input) None /\
     MoodJournalEntries.tags entry = overwrite (CreateEntry.tags input) None /\
     MoodJournalEntries.title entry = overwrite (CreateEntry.title input) None /\
     MoodJournalEntries.body entry = overwrite (CreateEntry.body input) None /\
     MoodJournalEntries.promptId entry
       = overwrite (CreateEntry.promptId input) None /\
     MoodJournalEntries.createdAt entry = clock rt /\
     MoodJournalEntries.updatedAt entry = clock rt) /\
  ((exists r, In r (entries (db w)) /\ MoodJournalEntries.id r = uuid rt) ->
   exists w',
     createEntry Date_of_string input context rt w
     = (Throw (ConstraintFailed TEntries), w') /\
     db w' = db w).
Proof.
  intros Hu Hvalid. split.
  - intros Hfresh. eexists. eexists. split.
    + unfold createEntry, bind.
      rewrite (requireUser_signed_in context u rt w Hu). cbn.
      unfold Store.insert_entry. cbn.
      rewrite (fresh_entry_id_unused _ _ Hfresh). reflexivity.
    + cbn. repeat split;
        try (match goal with |- nullish ?f = _ => destruct f; reflexivity end).
      unfold CreateEntry.schema in Hvalid. invert_schema Hvalid. cbn.
      match goal with H : Zod.optional Zod.date _ = Some ?o |- _ =>
        apply optional_ok in H; destruct o as [s|]; [|reflexivity];
        cbn in H; apply is_date_nonempty in H
      end.
      cbn. destruct (String.eqb_spec s ""); [contradiction | reflexivity].
  - intros (r & Hin & Hid). eexists.
    unfold createEntry, bind.
    rewrite (requireUser_signed_in context u rt w Hu). cbn.
    unfold Store.insert_entry. cbn.
    assert (Hused : existsb (fun x => String.eqb (MoodJournalEntries.id x) (uuid rt))
                       (entries (db w)) = true).
    { apply existsb_exists. exists r. split; [exact Hin|]. now apply String.eqb_eq. }
    rewrite Hused. split; reflexivity.
Qed.

Lemma create_entry_record_witness :
  caller (Sample.signed_in Sample.alice) = Some Sample.alice /\
  CreateEntry.schema
    {| CreateEntry.raw_entryDate := Given "2024-02-29";
       CreateEntry.raw_moodScore := Given 8;
       CreateEntry.raw_moodLabel := Null;
       CreateEntry.raw_tags := Omitted;
       CreateEntry.raw_title := Given "Leap day";
       CreateEntry.raw_body := Omitted;
       CreateEntry.raw_promptId := Omitted |}
  = Some Sample.new_entry /\
  fresh_entry_id (uuid Sample.first_call) Sample.diary /\
  exists (entry : Entry) (w' : World),
    createEntry Calendar.utc_midnight Sample.new_entry
      (Sample.signed_in Sample.alice) Sample.first_call Sample.diary
    = (Return (succeed entry), w') /\
    MoodJournalEntries.entryDate entry = 1709164800000 /\
    MoodJournalEntries.moodLabel entry = None.
Proof.
  assert (Hfresh : fresh_entry_id (uuid Sample.first_call) Sample.diary).
  { intros r [<-|[<-|[]]]; simpl; discriminate. }
  split; [reflexivity|]. split; [reflexivity|]. split; [exact Hfresh|].
  destruct (proj1 (create_entry_record Calendar.utc_midnight
                     (Sample.signed_in Sample.alice) Sample.alice
                     Sample.first_call Sample.diary
                     {| CreateEntry.raw_entryDate := Given "2024-02-29";
                        CreateEntry.raw_moodScore := Given 8;
                        CreateEntry.raw_moodLabel := Null;
                        CreateEntry.raw_tags := Omitted;
                        CreateEntry.raw_title := Given "Leap day";
                        CreateEntry.raw_body := Omitted;
                        CreateEntry.raw_promptId := Omitted |}
                     Sample.new_entry eq_refl eq_refl) Hfresh)
    as (entry & w' & Hrun & _ & _ & _ & _ & Hdate & _ & Hlabel & _).
  exists entry, w'. repeat split; assumption.
Defined.

(** ** What the requests of others cannot change *)

Lemma filter_both {A} (f g : A -> bool) (l : list A) :
  filter (fun x => f x && g x) l = filter f (filter g l).
Proof.
  induction l as [|x l IH]; cbn; [reflexivity|].
  destruct (g x); cbn.
  - rewrite andb_true_r. destruct (f x); now rewrite IH.
  - now rewrite andb_false_r.
Qed.

Lemma after_anonymous Date_of_string q w :
  caller (req_context q) = None -> db (after Date_of_string q w) = db w.
Proof.
  destruct q as [c context rt]. cbn [req_context]. intros Hanon.
  pose proof (requireUser_anonymous context rt w Hanon) as Hguard.
  unfold after. cbn [req_call req_context req_runtime].
  destruct c as [i|i|i|i|i|i|i|i];
    [ unfold createEntry | unfold updateEntry | unfold deleteEntry
    | unfold getEntry | unfold listEntries | unfold createPrompt
    | unfold updatePrompt | unfold listPrompts ];
    now rewrite (bind_throw _ _ _ _ _ _ Hguard).
Qed.

Lemma after_own_rows Date_of_string q w u :
  not_from u q ->
  filter (entry_owned_by u) (entries (db (after Date_of_string q w)))
  = filter (entry_owned_by u) (entries (db w)) /\
  filter (prompt_owned_by u) (prompts (db (after Date_of_string q w)))
  = filter (prompt_owned_by u) (prompts (db w)).
Proof.
  unfold not_from. destruct (caller (req_context q)) as [v|] eqn:Hv.
  - intros Hne.
    destruct (after_rows_of_others Date_of_string q w v Hv) as [He Hp].
    unfold entries_of_others, prompts_of_others in He, Hp. split.
    + rewrite <- (filter_filter_weaker (entry_owned_by u)
                    (fun r => negb (entry_owned_by v r))
                    (entries (db (after Date_of_string q w)))), He.
      * apply filter_filter_weaker. intros r Hr. unfold entry_owned_by in *.
        apply String.eqb_eq in Hr. rewrite Hr.
        now rewrite (proj2 (String.eqb_neq _ _)) by congruence.
      * intros r Hr. unfold entry_owned_by in *.
        apply String.eqb_eq in Hr. rewrite Hr.
        now rewrite (proj2 (String.eqb_neq _ _)) by congruence.
    + rewrite <- (filter_filter_weaker (prompt_owned_by u)
                    (fun r => negb (prompt_owned_by v r))
                    (prompts (db (after Date_of_string q w)))), Hp.
      * apply filter_filter_weaker. intros r Hr. unfold prompt_owned_by in *.
        destruct (MoodPrompts.userId r) as [owner|]; [|discriminate].
        apply String.eqb_eq in Hr. rewrite Hr.
        now rewrite (proj2 (String.eqb_neq _ _)) by congruence.
      * intros r Hr. unfold prompt_owned_by in *.
        destruct (MoodPrompts.userId r) as [owner|]; [|discriminate].
        apply String.eqb_eq in Hr. rewrite Hr.
        now rewrite (proj2 (String.eqb_neq _ _)) by congruence.
  - intros _. now rewrite (after_anonymous _ _ _ Hv).
Qed.

Lemma after_all_own_rows Date_of_string qs w u :
  Forall (not_from u) qs ->
  filter (entry_owned_by u) (entries (db (after_all Date_of_string qs w)))
  = filter (entry_owned_by u) (entries (db w)) /\
  filter (prompt_owned_by u) (prompts (db (after_all Date_of_string qs w)))
  = filter (prompt_owned_by u) (prompts (db w)).
Proof.
  unfold after_all. intros Hqs. revert w.
  induction Hqs as [|q qs Hq Hqs IH]; intros w; cbn; [now split|].
  destruct (IH (after Date_of_string q w)) as [-> ->].
  now apply after_own_rows.
Qed.

Lemma getEntry_reads i context u rt w :
  caller context = Some u ->
  fst (getEntry i context rt w)
  = match filter (fun r => String.eqb (MoodJournalEntries.id r) (GetEntry.id i))
            (filter (entry_owned_by u) (entries (db w))) with
    | [] => Throw EntryNotFound
    | entry :: _ => Return (succeed entry)
    end.
Proof.
  intros Hu. unfold getEntry, bind.
  rewrite (requireUser_signed_in context u rt w Hu). cbn.
  rewrite where_own_entry. unfold entry_target. rewrite filter_both.
  destruct (filter _ _); reflexivity.
Qed.

Lemma listPrompts_reads i context u rt w :
  caller context = Some u ->
  fst (listPrompts i context rt w)
  = let listed :=
      Sql.orderBy_desc MoodPrompts.createdAt
        (filter (fun r => truthy_bool (ListPrompts.includeInactive i)
                          || MoodPrompts.isActive r)
           (filter (prompt_owned_by u) (prompts (db w)))) in
    Return (succeed {| prompt_items := listed;
                       prompt_total := Z.of_nat (List.length listed) |}).
Proof.
  intros Hu.
  destruct (listPrompts_lists_own_prompts i context u rt w Hu)
    as (listed & -> & ->).
  cbn. rewrite <- filter_both.
  replace (filter (fun x => (truthy_bool (ListPrompts.includeInactive i)
                             || MoodPrompts.isActive x) && prompt_owned_by u x)
             (prompts (db w)))
    with (filter (fun r => prompt_owned_by u r
                           && (truthy_bool (ListPrompts.includeInactive i)
                               || MoodPrompts.isActive r)) (prompts (db w)))
    by (apply filter_ext; intros r; apply andb_comm).
  reflexivity.
Qed.

(** X16. What a user reads does not depend on what others do.  Let a
    sequence of requests come from anonymous callers or from users with
    another id than [u].  Then [getEntry], [listEntries] and [listPrompts],
    called by [u] with any input, return after the sequence what they would
    have returned before it: the same record or error, the same items and
    the same total. *)
Theorem requests_of_others_do_not_show
  (Date_of_string : string -> Date) (qs : list Request) (w : World)
  (context : ActionAPIContext) (u : User) :
  caller context = Some u ->
  Forall (not_from u) qs ->
  (forall i rt rt',
      fst (getEntry i context rt (after_all Date_of_string qs w))
      = fst (getEntry i context rt' w)) /\
  (forall i rt rt',
      fst (listEntries i context rt (after_all Date_of_string qs w))
      = fst (listEntries i context rt' w)) /\
  (forall i rt rt',
      fst (listPrompts i context rt (after_all Date_of_string qs w))
      = fst (listPrompts i context rt' w)).
Proof.
  intros Hu Hqs.
  destruct (after_all_own_rows Date_of_string qs w u Hqs) as [He Hp].
  repeat split; intros i rt rt'.
  - rewrite !(getEntry_reads _ _ _ _ _ Hu). now rewrite He.
  - rewrite !(listEntries_reads _ _ _ _ _ Hu).
    unfold entry_count. now rewrite He.
  - rewrite !(listPrompts_reads _ _ _ _ _ Hu). now rewrite Hp.
Qed.

Lemma requests_of_others_do_not_show_witness :
  caller (Sample.signed_in Sample.alice) = Some Sample.alice /\
  Forall (not_from Sample.alice)
    [ {| req_call := CallCreateEntry Sample.new_entry;
         req_context := Sample.signed_in Sample.bob;
         req_runtime := Sample.first_call |};
      {| req_call := CallDeleteEntry {| DeleteEntry.id := "e-alice" |};
         req_context := Sample.no_locals;
         req_runtime := Sample.second_call |} ] /\
  fst (listEntries {| ListEntries.page := 1; ListEntries.pageSize := 20 |}
         (Sample.signed_in Sample.alice) Sample.second_call
         (after_all Calendar.utc_midnight
            [ {| req_call := CallCreateEntry Sample.new_entry;
                 req_context := Sample.signed_in Sample.bob;
                 req_runtime := Sample.first_call |};
              {| req_call := CallDeleteEntry {| DeleteEntry.id := "e-alice" |};
                 req_context := Sample.no_locals;
                 req_runtime := Sample.second_call |} ] Sample.diary))
  = fst (listEntries {| ListEntries.page := 1; ListEntries.pageSize := 20 |}
           (Sample.signed_in Sample.alice) Sample.first_call Sample.diary).
Proof.
  assert (Hqs : Forall (not_from Sample.alice)
    [ {| req_call := CallCreateEntry Sample.new_entry;
         req_context := Sample.signed_in Sample.bob;
         req_runtime := Sample.first_call |};
      {| req_call := CallDeleteEntry {| DeleteEntry.id := "e-alice" |};
         req_context := Sample.no_locals;
         req_runtime := Sample.second_call |} ]).
  { repeat constructor. cbn. discriminate. }
  split; [reflexivity|]. split; [exact Hqs|].
  apply (requests_of_others_do_not_show Calendar.utc_midnight _ Sample.diary
           (Sample.signed_in Sample.alice) Sample.alice eq_refl Hqs).
Defined.
